(** * ProfitHub signal bot (bot.py): indicator engine, tick ingestor and
      round-robin scheduler, embedded in Rocq.

    Numbers.  Python ints are [Z].  A Python float is modelled by the pair of
    its exact rational value and the text that [str()] renders for it
    ([pyfloat]); float arithmetic is carried out exactly on the values
    (type [Q]), so rounding error of IEEE doubles is outside this model.

    Effects.  The two dictionaries of deques ([tick_data], [price_history])
    are a record of two [gmap]s that is threaded through the ingestor; the
    global [bot_index] is threaded through the scheduler.  Python exceptions
    are the [Raise] case of the result type [res]. *)

From Stdlib Require Import ZArith QArith Qround List String Ascii Lia Lqa Sorted Permutation.
From stdpp Require Import base gmap strings list fin_maps pretty.

Local Open Scope string_scope.
Local Open Scope list_scope.
Local Open Scope Z_scope.

(** ** Exceptions and results *)

Inductive exn : Type :=
| IndexError
| KeyError
| TypeError
| ValueError
| ZeroDivisionError
| JSONDecodeError.

Inductive res (A : Type) : Type :=
| Ok (a : A)
| Raise (e : exn).

Arguments Ok {A} a.
Arguments Raise {A} e.

#[global] Instance res_ret : MRet res := fun A a => Ok a.

#[global] Instance res_bind : MBind res := fun A B f m =>
  match m with
  | Ok a => f a
  | Raise e => Raise e
  end.

(** ** Python built-ins used by the program *)

Module Py.

(** [l[i]], negative indices counting from the end. *)
Definition index {A} (l : list A) (i : Z) : res A :=
  let n := Z.of_nat (length l) in
  let j := if i <? 0 then i + n else i in
  if (j <? 0) || (n <=? j) then Raise IndexError
  else match l !! Z.to_nat j with
       | Some a => Ok a
       | None => Raise IndexError
       end.

(** [l[i:]] *)
Definition slice_from {A} (l : list A) (i : Z) : list A :=
  let n := Z.of_nat (length l) in
  let j := if i <? 0 then Z.max (i + n) 0 else Z.min i n in
  drop (Z.to_nat j) l.

(** [l[:j]] *)
Definition slice_to {A} (l : list A) (j : Z) : list A :=
  let n := Z.of_nat (length l) in
  let k := if j <? 0 then Z.max (j + n) 0 else Z.min j n in
  take (Z.to_nat k) l.

(** [range(a, b)] and [range(n)] *)
Definition range2 (a b : Z) : list Z := seqZ a (b - a).
Definition range (n : Z) : list Z := range2 0 n.

(** [sum(l)], left to right from 0. *)
Definition sum (l : list Z) : Z := fold_left Z.add l 0.
Definition fsum (l : list Q) : Q := fold_left Qplus l (0 # 1)%Q.

(** [l.count(x)] *)
Fixpoint count (l : list Z) (x : Z) : Z :=
  match l with
  | [] => 0
  | y :: l' => (if y =? x then 1 else 0) + count l' x
  end.

(** [max(x, 0)], [min(x, 0)] and [abs(x)] on floats. *)
Definition fmax (x y : Q) : Q := if Qle_bool y x then x else y.
Definition fmin (x y : Q) : Q := if Qle_bool x y then x else y.
Definition fabs (x : Q) : Q := if Qle_bool 0 x then x else (- x)%Q.

(** Truth value of a float: zero is false. *)
Definition ftruthy (x : Q) : bool := negb (Qeq_bool x 0).

(** [round(x, ndigits)]: to the nearest multiple of [10^-ndigits], a tie
    going to the even one. *)
Definition round_half_even (y : Q) : Z :=
  let f := Qfloor y in
  match ((y - inject_Z f) ?= 1 # 2)%Q with
  | Lt => f
  | Gt => f + 1
  | Eq => if Z.even f then f else f + 1
  end.

Definition round (x : Q) (ndigits : nat) : Q :=
  let s := inject_Z (10 ^ Z.of_nat ndigits) in
  (inject_Z (round_half_even (x * s)) / s)%Q.

(** [sorted(l, key=key, reverse=True)].  Python's sort is stable, and
    [reverse=True] keeps it stable: elements with equal keys stay in their
    original order.  [insert_desc x l] puts [x], which precedes every element
    of [l] in the input, after the elements of strictly greater key. *)
Fixpoint insert_desc (key : Z -> Z) (x : Z) (l : list Z) : list Z :=
  match l with
  | [] => [x]
  | y :: l' => if key x <? key y then y :: insert_desc key x l' else x :: l
  end.

Fixpoint sorted_desc (key : Z -> Z) (l : list Z) : list Z :=
  match l with
  | [] => []
  | x :: l' => insert_desc key x (sorted_desc key l')
  end.

(** [s.split(sep)] for a one-character separator. *)
Fixpoint split (sep : ascii) (s : string) : list string :=
  match s with
  | EmptyString => [EmptyString]
  | String c s' =>
      if Ascii.eqb c sep then EmptyString :: split sep s'
      else match split sep s' with
           | seg :: rest => String c seg :: rest
           | [] => [String c EmptyString]
           end
  end.

(** [int(c)] for a one-character string: the digit's value, [ValueError]
    for any other character. *)
Definition int_of_char (c : ascii) : res Z :=
  let n := Z.of_nat (nat_of_ascii c) in
  if (48 <=? n) && (n <=? 57) then Ok (n - 48) else Raise ValueError.

(** [deque(maxlen=n)]: [append] adds on the right and, when the length then
    exceeds [maxlen], drops one element on the left. *)
Record deque (A : Type) : Type := Deque { maxlen : nat; items : list A }.

Arguments Deque {A} maxlen items.
Arguments maxlen {A} d.
Arguments items {A} d.

Definition deque_new {A} (n : nat) : deque A := Deque n [].

Definition deque_append {A} (x : A) (d : deque A) : deque A :=
  let l := items d ++ [x] in
  Deque (maxlen d) (if (maxlen d <? length l)%nat then drop 1 l else l).

Definition deque_len {A} (d : deque A) : Z := Z.of_nat (length (items d)).

End Py.

(** ** Floats *)

Record pyfloat : Type := PyFloat { value : Q; repr : string }.

(** ** Configuration and global state (bot.py, lines 65-79) *)

Definition MARKETS : list (string * string) :=
  [ ("R_10", "Volatility 10 Index");
    ("1HZ10V", "Volatility 10 (1s) Index");
    ("R_25", "Volatility 25 Index");
    ("1HZ25V", "Volatility 25 (1s) Index") ].

Definition BOT_SEQUENCE : list string := ["V1"; "V2"; "V4"; "V5"].

Record buffers : Type := Buffers {
  tick_data : gmap string (Py.deque Z);
  price_history : gmap string (Py.deque pyfloat)
}.

Definition initial_buffers : buffers :=
  Buffers (list_to_map (map (fun m => (fst m, Py.deque_new 120)) MARKETS))
          (list_to_map (map (fun m => (fst m, Py.deque_new 120)) MARKETS)).

(** ** Utilities (bot.py, lines 82-123) *)

Definition last_digit (price : pyfloat) : res Z :=
  seg ← Py.index (Py.split "."%char (repr price)) (-1);
  ch ← Py.index (list_ascii_of_string seg) (-1);
  Py.int_of_char ch.

Record stats : Type := Stats {
  freq : list Z;
  under6 : Q;
  under7 : Q;
  even : Q;
  odd : Q
}.

(** [counts[x]] for an index that the program takes from a literal list or
    from [range(10)]; [counts] has ten entries (lemma [counts_index]). *)
Definition at_ (counts : list Z) (x : Z) : Z := nth (Z.to_nat x) counts 0.

Definition percent (c total : Z) : Q := (inject_Z c / inject_Z total * 100)%Q.

Definition digit_counts (ticks : list Z) : list Z :=
  map (Py.count ticks) (Py.range 10).

Definition digit_stats (b : buffers) (symbol : string) : res (option stats) :=
  match tick_data b !! symbol with
  | None => Raise KeyError
  | Some ticks =>
      if Py.deque_len ticks <? 60 then Ok None
      else
        let counts := digit_counts (Py.items ticks) in
        let total := Py.deque_len ticks in
        Ok (Some {|
          freq := Py.sorted_desc (at_ counts) (Py.range 10);
          under6 := percent (Py.sum (Py.slice_to counts 6)) total;
          under7 := percent (Py.sum (Py.slice_to counts 7)) total;
          even := percent (Py.sum (map (at_ counts) [0; 2; 4; 6; 8])) total;
          odd := percent (Py.sum (map (at_ counts) [1; 3; 5; 7; 9])) total
        |})
  end.

(** [x / y] on floats; Python raises on a zero divisor. *)
Definition fdiv (x y : Q) : res Q :=
  if Qeq_bool y 0 then Raise ZeroDivisionError else Ok (x / y)%Q.

Definition flt (x y : Q) : bool := negb (Qle_bool y x).

(** The body of the [for i in range(1, period + 1)] loop of [calc_rsi],
    threading the two lists it appends to. *)
Fixpoint rsi_loop (prices : list Q) (idx : list Z) (gains losses : list Q)
  : res (list Q * list Q) :=
  match idx with
  | [] => Ok (gains, losses)
  | i :: idx' =>
      a ← Py.index prices (- i);
      b ← Py.index prices (- i - 1);
      let diff := (a - b)%Q in
      rsi_loop prices idx'
        (gains ++ [Py.fmax diff 0])
        (losses ++ [Py.fabs (Py.fmin diff 0)])
  end.

Definition calc_rsi (prices : list Q) (period : Z) : res (option Q) :=
  if Z.of_nat (length prices) <? period + 1 then Ok None
  else
    gl ← rsi_loop prices (Py.range2 1 (period + 1)) [] [];
    avg_gain ← fdiv (Py.fsum (fst gl)) (inject_Z period);
    avg_loss0 ← fdiv (Py.fsum (snd gl)) (inject_Z period);
    let avg_loss := if Py.ftruthy avg_loss0 then avg_loss0 else (1 # 10000)%Q in
    rs ← fdiv avg_gain avg_loss;
    q ← fdiv 100 (1 + rs)%Q;
    Ok (Some (Py.round (100 - q)%Q 2)).

Definition ema (data : list Q) (p : Z) : res Q :=
  k ← fdiv 2 (inject_Z (p + 1));
  e ← Py.index data 0;
  Ok (fold_left (fun e v => (v * k + e * (1 - k))%Q) (Py.slice_from data 1) e).

Definition calc_macd (prices : list Q) : res (option Q) :=
  if Z.of_nat (length prices) <? 35 then Ok None
  else
    e12 ← ema (Py.slice_from prices (-26)) 12;
    e26 ← ema (Py.slice_from prices (-26)) 26;
    let macd := (e12 - e26)%Q in
    signal ← ema (Py.slice_from prices (-9)) 9;
    Ok (Some (Py.round (macd - signal)%Q 5)).

(** ** Signal logic (bot.py, lines 126-162) *)

(** The dictionary an evaluator returns; a key that the evaluator does not
    set is [None]. *)
Record signal : Type := Signal {
  trade : string;
  entry : option Z;
  prob : option Q;
  rsi : option Q;
  macd : option Q;
  momentum : option Q
}.

Definition verdict : Type := option (signal * string).

Definition signal_v1 (b : buffers) (sym name : string) : res verdict :=
  s ← digit_stats b sym;
  match s with
  | Some s =>
      if Qle_bool 60 (under6 s) then
        e ← Py.index (freq s) 0;
        Ok (Some (Signal "UNDER 6" (Some e) (Some (under6 s)) None None None, name))
      else Ok None
  | None => Ok None
  end.

Definition signal_v2 (b : buffers) (sym name : string) : res verdict :=
  s ← digit_stats b sym;
  match s with
  | Some s =>
      if Qle_bool 60 (under7 s) then
        e ← Py.index (freq s) 0;
        Ok (Some (Signal "UNDER 7" (Some e) (Some (under7 s)) None None None, name))
      else Ok None
  | None => Ok None
  end.

Definition signal_v4 (b : buffers) (sym name : string) : res verdict :=
  match price_history b !! sym with
  | None => Raise KeyError
  | Some d =>
      let prices := map value (Py.items d) in
      r ← calc_rsi prices 14;
      m ← calc_macd prices;
      match r, m with
      | Some r, Some m =>
          if Py.ftruthy r && Py.ftruthy m && flt 60 r && flt 0 m then
            Ok (Some (Signal "RISE" None None (Some r) (Some m)
                             (Some (Py.round r 1)), name))
          else Ok None
      | _, _ => Ok None
      end
  end.

Definition signal_v5 (b : buffers) (sym name : string) : res verdict :=
  s ← digit_stats b sym;
  match s with
  | Some s =>
      if Qle_bool 60 (even s) then
        Ok (Some (Signal "EVEN" None (Some (even s)) None None None, name))
      else Ok None
  | None => Ok None
  end.

(** ** Tick ingestor (bot.py, lines 186-201) *)

(** What [json.loads] returns.  A JSON number is carried as the float that
    [float()] makes of it. *)
#[warnings="-register-all"]
Inductive json : Type :=
| JNull
| JBool (b : bool)
| JNum (f : pyfloat)
| JStr (s : string)
| JArr (l : list json)
| JObj (o : list (string * json)).

(** A frame of the stream: text that [json.loads] rejects, or the value it
    returns. *)
Inductive message : Type :=
| Malformed
| Parsed (d : json).

Definition loads (msg : message) : res json :=
  match msg with
  | Malformed => Raise JSONDecodeError
  | Parsed d => Ok d
  end.

Fixpoint assoc (k : string) (o : list (string * json)) : option json :=
  match o with
  | [] => None
  | (k', v) :: o' => if String.eqb k k' then Some v else assoc k o'
  end.

Definition is_str (k : string) (v : json) : bool :=
  match v with
  | JStr s => String.eqb s k
  | _ => false
  end.

Fixpoint prefix_of (k s : string) : bool :=
  match k, s with
  | EmptyString, _ => true
  | String a k', String b s' => Ascii.eqb a b && prefix_of k' s'
  | String _ _, EmptyString => false
  end.

Fixpoint substring_of (k s : string) : bool :=
  prefix_of k s ||
  match s with
  | EmptyString => false
  | String _ s' => substring_of k s'
  end.

(** [k in d] *)
Definition contains (d : json) (k : string) : res bool :=
  match d with
  | JObj o => Ok (bool_decide (is_Some (assoc k o)))
  | JArr l => Ok (existsb (is_str k) l)
  | JStr s => Ok (substring_of k s)
  | JNull | JBool _ | JNum _ => Raise TypeError
  end.

(** [d[k]] for a string [k] *)
Definition getitem (d : json) (k : string) : res json :=
  match d with
  | JObj o => match assoc k o with
              | Some v => Ok v
              | None => Raise KeyError
              end
  | _ => Raise TypeError
  end.

(** [table[s]] on one of the two dictionaries, whose keys are strings: a
    list or an object is unhashable, any other value is a missing key. *)
Definition lookup_symbol {A} (table : gmap string A) (s : json) : res (string * A) :=
  match s with
  | JStr k => match table !! k with
              | Some v => Ok (k, v)
              | None => Raise KeyError
              end
  | JArr _ | JObj _ => Raise TypeError
  | JNull | JBool _ | JNum _ => Raise KeyError
  end.

Section Ingestor.

(** [float(s)] on a string is Python's parser: [None] stands for its
    [ValueError]. *)
Variable float_of_str : string -> option pyfloat.

Definition to_float (v : json) : res pyfloat :=
  match v with
  | JNum f => Ok f
  | JBool true => Ok (PyFloat 1 "1.0")
  | JBool false => Ok (PyFloat 0 "0.0")
  | JStr s => match float_of_str s with
              | Some f => Ok f
              | None => Raise ValueError
              end
  | JNull | JArr _ | JObj _ => Raise TypeError
  end.

(** Lines 194-198 up to the first [append]: everything that can raise
    before a buffer is touched. *)
Definition read_tick (b : buffers) (msg : message)
  : res (option (pyfloat * string * Py.deque Z * Z)) :=
  d ← loads msg;
  c ← contains d "tick";
  if c : bool then
    tk ← getitem d "tick";
    q ← getitem tk "quote";
    p ← to_float q;
    tk' ← getitem d "tick";
    s ← getitem tk' "symbol";
    kd ← lookup_symbol (tick_data b) s;
    g ← last_digit p;
    Ok (Some (p, fst kd, snd kd, g))
  else Ok None.

(** One iteration of [async for msg in ws]: the buffers afterwards, and
    whether the body raised. *)
Definition on_message (b : buffers) (msg : message) : buffers * res unit :=
  match read_tick b msg with
  | Raise e => (b, Raise e)
  | Ok None => (b, Ok ())
  | Ok (Some (p, s, dq, g)) =>
      let b1 := Buffers (<[s := Py.deque_append g dq]> (tick_data b))
                        (price_history b) in
      match price_history b1 !! s with
      | None => (b1, Raise KeyError)
      | Some pq =>
          (Buffers (tick_data b1) (<[s := Py.deque_append p pq]> (price_history b1)),
           Ok ())
      end
  end.

(** [collect_ticks]: an exception leaves the [async for], the handler sleeps
    and the connection is opened again; the buffers are module globals and
    carry over.  The frames of all connections are taken as one list. *)
Definition collect_ticks (b : buffers) (msgs : list message) : buffers :=
  fold_left (fun b msg => fst (on_message b msg)) msgs b.

End Ingestor.

(** ** Scheduler (bot.py, lines 204-260) *)

Definition evaluator : Type := buffers -> string -> string -> res verdict.

(** The dictionary of line 219. *)
Definition EVALUATORS : list (string * evaluator) :=
  [ ("V1", signal_v1); ("V2", signal_v2); ("V4", signal_v4); ("V5", signal_v5) ].

Fixpoint dict_get {A} (d : list (string * A)) (k : string) : res A :=
  match d with
  | [] => Raise KeyError
  | (k', v) :: d' => if String.eqb k k' then Ok v else dict_get d' k
  end.

(** A call of an evaluator, as (dictionary key of the evaluator, symbol). *)
Definition call : Type := (string * string)%type.

Definition truthy (v : verdict) : bool :=
  match v with
  | Some _ => true
  | None => false
  end.

(** Line 220, [next((fn(s,n) for s,n in MARKETS if fn(s,n)), None)]: the
    generator calls [fn] for the filter and, when that is true, once more for
    the value, which [next] returns without resuming the generator.  The
    calls made are logged. *)
Fixpoint first_signal (id : string) (fn : string -> string -> res verdict)
    (markets : list (string * string)) (log : list call)
  : list call * res verdict :=
  match markets with
  | [] => (log, Ok None)
  | (s, n) :: rest =>
      let log1 := log ++ [(id, s)] in
      match fn s n with
      | Raise e => (log1, Raise e)
      | Ok c =>
          if truthy c then (log1 ++ [(id, s)], fn s n)
          else first_signal id fn rest log1
      end
  end.

Inductive status : Type := NO_SIGNAL | ACTIVE | EXPIRED.

(** What a cycle does, in order.  Clock readings and message texts are left
    out; [PreAlert], [NoSignalNote] and [SignalNote] name the evaluator they
    announce. *)
Inductive event : Type :=
| Cleanup
| PreAlert (current_bot : string)
| Sleep (seconds : Z)
| Evaluate (calls : list call)
| Publish (st : status) (current_bot next_bot : string) (market : option string)
| NoSignalNote (current_bot : string)
| SignalNote (current_bot : string) (data : signal) (market : string)
| ExpiredNote.

(** One pass of the [while True] body of [main]: [b] is the content of the
    buffers when line 220 runs. *)
Definition cycle (b : buffers) (bot_index : Z) : res (list event * Z) :=
  let n := Z.of_nat (length BOT_SEQUENCE) in
  current_bot ← Py.index BOT_SEQUENCE bot_index;
  next_bot ← Py.index BOT_SEQUENCE ((bot_index + 1) mod n);
  let bot_index' := (bot_index + 1) mod n in
  let pre := [Cleanup; PreAlert current_bot; Sleep 120] in
  fn ← dict_get EVALUATORS current_bot;
  let '(calls, r) := first_signal current_bot (fn b) MARKETS [] in
  result ← r;
  match result with
  | None =>
      Ok (pre ++ [Evaluate calls;
                  Publish NO_SIGNAL current_bot next_bot None;
                  NoSignalNote current_bot; Sleep 600], bot_index')
  | Some (data, market) =>
      Ok (pre ++ [Evaluate calls;
                  Publish ACTIVE current_bot next_bot (Some market);
                  SignalNote current_bot data market; Sleep 300;
                  Publish EXPIRED current_bot next_bot (Some market);
                  ExpiredNote; Sleep 300], bot_index')
  end.

(** The loop, for as many passes as there are buffer snapshots. *)
Fixpoint run (snaps : list buffers) (bot_index : Z) : res (list (list event) * Z) :=
  match snaps with
  | [] => Ok ([], bot_index)
  | b :: snaps' =>
      c ← cycle b bot_index;
      r ← run snaps' (snd c);
      Ok (fst c :: fst r, snd r)
  end.

(** The evaluations a pass makes, each with its calls. *)
Definition evaluations (evs : list event) : list (list call) :=
  omap (fun e => match e with
                 | Evaluate calls => Some calls
                 | _ => None
                 end) evs.

(** The evaluator a pass announces. *)
Definition active_of (evs : list event) : option string :=
  match evs with
  | Cleanup :: PreAlert bot :: _ => Some bot
  | _ => None
  end.

(** * Reference definitions

    The definitions of this part follow the wording of the specification;
    the theorems below compare them with the program above. *)

(** ** Digit statistics *)

(** Number of samples whose digit lies in a given set of digits. *)
Definition qualifying (digits : list Z) (ticks : list Z) : Z :=
  Z.of_nat (length (filter (fun d => d ∈ digits) ticks)).

Definition share (digits : list Z) (ticks : list Z) : Q :=
  (inject_Z (qualifying digits ticks) / inject_Z (Z.of_nat (length ticks)) * 100)%Q.

Definition is_digit (d : Z) : Prop := 0 <= d <= 9.

(** ** Oscillators *)

(** The most recent [n] samples. *)
Definition recent {A} (n : nat) (l : list A) : list A := drop (length l - n)%nat l.

(** Consecutive differences, oldest first. *)
Fixpoint differences (l : list Q) : list Q :=
  match l with
  | a :: (b :: _) as l' => (b - a)%Q :: differences l'
  | _ => []
  end.

Definition gain (d : Q) : Q := if Qlt_le_dec 0 d then d else 0%Q.
Definition loss (d : Q) : Q := if Qlt_le_dec d 0 then (- d)%Q else 0%Q.

Definition total (l : list Q) : Q := foldr Qplus 0%Q l.

Definition average (l : list Q) (n : Z) : Q := (total l / inject_Z n)%Q.

Definition rsi_reference (prices : list Q) : Q :=
  let ds := differences (recent 15 prices) in
  let avg_gain := average (map gain ds) 14 in
  let avg_loss := average (map loss ds) 14 in
  let avg_loss' := if Qeq_dec avg_loss 0 then (1 # 10000)%Q else avg_loss in
  (100 - 100 / (1 + avg_gain / avg_loss'))%Q.

(** The exponential moving average after the sample of position [t] of the
    window [w]: the first sample seeds it. *)
Fixpoint ema_at (k : Q) (w : list Q) (t : nat) : Q :=
  match t with
  | O => nth 0 w 0%Q
  | S t' => (nth t w 0 * k + ema_at k w t' * (1 - k))%Q
  end.

Definition ema_reference (period : Z) (w : list Q) : Q :=
  ema_at (2 / inject_Z (period + 1))%Q w (length w - 1).

Definition macd_reference (prices : list Q) : Q :=
  (ema_reference 12 (recent 26 prices) - ema_reference 26 (recent 26 prices)
   - ema_reference 9 (recent 9 prices))%Q.

(** ** Float renderings

    The text [str()] gives for a finite float is either positional,
    [-ddd.ddd], or scientific, [-d.ddde-dd], where the fraction of the
    scientific form may be missing ([1e-07]).  Digits are given by value. *)

Inductive rendering : Type :=
| Positional (negative : bool) (int_part frac_part : list Z)
| Scientific (negative : bool) (int_part frac_part : list Z)
             (exp_negative : bool) (exp_part : list Z).

Definition digit_char (d : Z) : ascii := ascii_of_nat (Z.to_nat (48 + d)).

Definition digits_text (ds : list Z) : string :=
  string_of_list_ascii (map digit_char ds).

Definition sign_text (negative : bool) : string := if negative then "-" else "".

Definition render (r : rendering) : string :=
  match r with
  | Positional neg ip fp =>
      (sign_text neg ++ digits_text ip ++ "." ++ digits_text fp)%string
  | Scientific neg ip fp eneg ex =>
      (sign_text neg ++ digits_text ip
       ++ match fp with
          | [] => ""
          | _ => "." ++ digits_text fp
          end
       ++ "e" ++ (if eneg then "-" else "+") ++ digits_text ex)%string
  end.

Definition well_formed (r : rendering) : Prop :=
  match r with
  | Positional _ ip fp =>
      Forall is_digit ip /\ Forall is_digit fp /\ ip <> [] /\ fp <> []
  | Scientific _ ip fp _ ex =>
      Forall is_digit ip /\ Forall is_digit fp /\ Forall is_digit ex
      /\ ip <> [] /\ ex <> []
  end.

(** The digit the specification of [last_digit] names: the last one of the
    fraction, or of the exponent when there is one. *)
Definition final_digit (r : rendering) : Z :=
  match r with
  | Positional _ _ fp => List.last fp 0
  | Scientific _ _ _ _ ex => List.last ex 0
  end.

(** ** Stream messages *)

Definition has_key (k : string) (v : json) : bool :=
  match v with
  | JObj o => bool_decide (is_Some (assoc k o))
  | _ => false
  end.

(** A message of shape [{tick: {symbol, quote}}]. *)
Definition tick_shaped (msg : message) : bool :=
  match msg with
  | Parsed (JObj o) =>
      match assoc "tick" o with
      | Some t => has_key "symbol" t && has_key "quote" t
      | None => false
      end
  | _ => false
  end.

Definition symbols : list string := map fst MARKETS.

(** Every configured instrument has both of its buffers. *)
Definition tracked (b : buffers) : bool :=
  forallb (fun s => bool_decide (is_Some (tick_data b !! s))
                    && bool_decide (is_Some (price_history b !! s))) symbols.

(** The keys of the two dictionaries are the configured symbols, and the
    deques have the capacity they were created with. *)
Definition consistent (b : buffers) : Prop :=
  (forall s, is_Some (tick_data b !! s) <-> s ∈ symbols) /\
  (forall s, is_Some (price_history b !! s) <-> s ∈ symbols) /\
  (forall s d, tick_data b !! s = Some d -> Py.maxlen d = 120%nat) /\
  (forall s d, price_history b !! s = Some d -> Py.maxlen d = 120%nat).

Section TickReference.

Variable float_of_str : string -> option pyfloat.

(** The (symbol, digit, price) a message contributes: it must be a tick for
    a configured instrument whose quote is a number with a decimal digit at
    the end of its text. *)
Definition tick_of (msg : message) : option (string * Z * pyfloat) :=
  match msg with
  | Parsed (JObj o) =>
      match assoc "tick" o with
      | Some (JObj t) =>
          match assoc "quote" t, assoc "symbol" t with
          | Some q, Some (JStr s) =>
              if bool_decide (s ∈ symbols) then
                match to_float float_of_str q with
                | Ok p => match last_digit p with
                          | Ok g => Some (s, g, p)
                          | Raise _ => None
                          end
                | Raise _ => None
                end
              else None
          | _, _ => None
          end
      | _ => None
      end
  | _ => None
  end.

(** The digits, and the prices, that a list of messages contributes to one
    instrument, in arrival order. *)
Definition digits_for (sym : string) (msgs : list message) : list Z :=
  omap (fun msg => match tick_of msg with
                   | Some (s, g, _) => if String.eqb s sym then Some g else None
                   | None => None
                   end) msgs.

Definition prices_for (sym : string) (msgs : list message) : list pyfloat :=
  omap (fun msg => match tick_of msg with
                   | Some (s, _, p) => if String.eqb s sym then Some p else None
                   | None => None
                   end) msgs.

End TickReference.

(** ** Auxiliary notions *)

(** Sum of a list of integers, from the right. *)
Definition zsum (l : list Z) : Z := foldr Z.add 0 l.

(** [x] is ranked before [y]: more frequent, or as frequent and smaller. *)
Definition ranked_before (key : Z -> Z) (x y : Z) : Prop :=
  key y < key x \/ (key x = key y /\ x < y).

(** A text without a decimal point. *)
Fixpoint dotless (s : string) : bool :=
  match s with
  | EmptyString => true
  | String c s' => negb (Ascii.eqb c ".") && dotless s'
  end.

(** ** Sample data *)

(** Sixty digits: 0 to 5, ten times each. *)
Definition sample_digits : list Z := concat (replicate 10 [0; 1; 2; 3; 4; 5]).

Definition sample_buffers : buffers :=
  Buffers (<["R_10" := Py.Deque 120 sample_digits]> (tick_data initial_buffers))
          (price_history initial_buffers).

Definition sample_stats : stats :=
  match digit_stats sample_buffers "R_10" with
  | Ok (Some s) => s
  | _ => Stats [] 0 0 0 0
  end.

(** A tick of R_10 whose quote ends in the digit [d]. *)
Definition sample_tick (d : Z) : message :=
  Parsed (JObj [("tick",
                 JObj [("symbol", JStr "R_10");
                       ("quote", JNum (PyFloat (inject_Z 6 + inject_Z d / 10)
                                               ("6." ++ digits_text [d])))])]).

Definition sample_messages : list message := map sample_tick sample_digits.

Definition no_float_of_str (s : string) : option pyfloat := None.

(** Forty rising prices, 1 to 40. *)
Definition sample_prices : list Q := map inject_Z (seqZ 1 40).

(** The price of [sample_tick d]. *)
Definition sample_price (d : Z) : pyfloat :=
  PyFloat (inject_Z 6 + inject_Z d / 10) ("6." ++ digits_text [d]).



(** Fifteen falling prices, 15 down to 1. *)
Definition falling_prices : list Q := map inject_Z (rev (seqZ 1 15)).

(** A tick for an instrument that is not configured. *)
Definition stray_tick : list (string * json) :=
  [("symbol", JStr "R_99"); ("quote", JNum (PyFloat 1 "1.0"))].

(** ** Notifier (bot.py, lines 165-183)

    The Telegram calls are the caller's: a send is given the reply of the
    server (the new message id, or an exception), a delete is given whether
    it raises. *)

Definition BOT_IMAGES : list (string * string) :=
  map (fun b => (b, ("images/" ++ b ++ ".png")%string)) BOT_SEQUENCE.

(** [d.get(k)] *)
Fixpoint dict_find {A} (d : list (string * A)) (k : string) : option A :=
  match d with
  | [] => None
  | (k', v) :: d' => if String.eqb k k' then Some v else dict_find d' k
  end.

Inductive api_call : Type :=
| SendMessage (text : string)
| SendPhoto (img caption : string)
| DeleteMessage (id : Z) (raised : bool).

(** [send]: the id is appended only when [send_message] returns. *)
Definition send (reply : res Z) (text : string) (sent_messages : list Z)
  : list api_call * list Z * res unit :=
  match reply with
  | Ok id => ([SendMessage text], sent_messages ++ [id], Ok ())
  | Raise e => ([SendMessage text], sent_messages, Raise e)
  end.

(** [send_with_image]: [reply] is the outcome of opening the file and
    sending the photo, or of the plain send. *)
Definition send_with_image (path_exists : string -> bool) (reply : res Z)
    (bot_type caption : string) (sent_messages : list Z)
  : list api_call * list Z * res unit :=
  match dict_find BOT_IMAGES bot_type with
  | Some img =>
      if negb (String.eqb img "") && path_exists img then
        match reply with
        | Ok id => ([SendPhoto img caption], sent_messages ++ [id], Ok ())
        | Raise e => ([SendPhoto img caption], sent_messages, Raise e)
        end
      else send reply caption sent_messages
  | None => send reply caption sent_messages
  end.

(** [cleanup]: while the list is not empty, pop its last id and try to
    delete that message; an exception of the delete is swallowed.  [fuel]
    bounds the number of iterations; [None] is running out of it. *)
Fixpoint cleanup (fuel : nat) (delete_raises : Z -> bool) (sent_messages : list Z)
  : option (list api_call * list Z) :=
  match fuel with
  | O => None
  | S fuel' =>
      match sent_messages with
      | [] => Some ([], [])
      | _ :: _ =>
          let id := List.last sent_messages 0 in
          let rest := removelast sent_messages in
          match cleanup fuel' delete_raises rest with
          | Some (calls, final) =>
              Some (DeleteMessage id (delete_raises id) :: calls, final)
          | None => None
          end
      end
  end.

(** ** Git synchronisation (bot.py, lines 30-42) *)

Inductive git_command : Type := GitStatus | GitAdd | GitCommit | GitPush.

(** How a child process ends: with an exit code and its output ([None] when
    the bytes do not decode), or not started at all. *)
Inductive process : Type :=
| Exited (code : Z) (stdout : option string)
| NotStarted.

(** The line the function logs, if any. *)
Inductive git_log : Type := Pushed | SyncFailed | Silent.

(** ASCII white space, as [str.strip] removes it. *)
Definition is_space (c : ascii) : bool :=
  let n := nat_of_ascii c in
  ((9 <=? n) && (n <=? 13) || (28 <=? n) && (n <=? 32))%nat.

Fixpoint lstrip (s : list ascii) : list ascii :=
  match s with
  | [] => []
  | c :: s' => if is_space c then lstrip s' else s
  end.

Definition strip (s : string) : string :=
  string_of_list_ascii (rev (lstrip (rev (lstrip (list_ascii_of_string s))))).

(** [subprocess.check_output(...).decode()]: [None] is any of its
    exceptions. *)
Definition check_output (p : process) : option string :=
  match p with
  | Exited 0 (Some out) => Some out
  | _ => None
  end.

(** [subprocess.run(..., check=check)] *)
Definition run_process (check : bool) (p : process) : option unit :=
  match p with
  | Exited code _ => if check && negb (code =? 0) then None else Some ()
  | NotStarted => None
  end.

(** [git_push_if_changed]: the commands started, in order, and the line
    logged.  Every exception ends in the handler, which logs the failure. *)
Definition git_push_if_changed (proc : git_command -> process)
  : list git_command * git_log :=
  match check_output (proc GitStatus) with
  | None => ([GitStatus], SyncFailed)
  | Some out =>
      let status := strip out in
      if String.eqb status "" then ([GitStatus], Silent)
      else
        match run_process true (proc GitAdd) with
        | None => ([GitStatus; GitAdd], SyncFailed)
        | Some _ =>
            match run_process false (proc GitCommit) with
            | None => ([GitStatus; GitAdd; GitCommit], SyncFailed)
            | Some _ =>
                match run_process true (proc GitPush) with
                | None => ([GitStatus; GitAdd; GitCommit; GitPush], SyncFailed)
                | Some _ => ([GitStatus; GitAdd; GitCommit; GitPush], Pushed)
                end
            end
        end
  end.

(** ** Readings of a pass *)

(** Seconds a pass sleeps. *)
Definition slept (evs : list event) : Z :=
  Py.sum (omap (fun e => match e with
                         | Sleep n => Some n
                         | _ => None
                         end) evs).

(** The states a pass publishes, in order. *)
Definition published (evs : list event) : list status :=
  omap (fun e => match e with
                 | Publish st _ _ _ => Some st
                 | _ => None
                 end) evs.

(** Number of notifications a pass sends. *)
Definition notes (evs : list event) : nat :=
  length (omap (fun e => match e with
                         | PreAlert _ | NoSignalNote _ | SignalNote _ _ _
                         | ExpiredNote => Some e
                         | _ => None
                         end) evs).

(** The three evaluators that read the digit statistics. *)
Definition digit_evaluators : list evaluator := [signal_v1; signal_v2; signal_v5].

(** * Properties *)

(** ** Built-ins *)

Lemma res_bind_ok {A B} (m : res A) (f : A -> res B) (a : A) :
  m = Ok a -> (m ≫= f) = f a.
Proof. intros ->. reflexivity. Qed.

Lemma py_index_nonneg {A} (l : list A) (i : nat) (x : A) :
  l !! i = Some x -> Py.index l (Z.of_nat i) = Ok x.
Proof.
  intros H. pose proof (lookup_lt_Some _ _ _ H) as Hlt.
  unfold Py.index.
  destruct (Z.ltb_spec (Z.of_nat i) 0) as [Hneg|_]; [lia|].
  destruct (Z.ltb_spec (Z.of_nat i) 0) as [Hneg|_]; [lia|].
  destruct (Z.leb_spec (Z.of_nat (length l)) (Z.of_nat i)) as [Hge|_]; [lia|].
  cbn. rewrite Nat2Z.id, H. reflexivity.
Qed.

Lemma py_index_from_end {A} (l : list A) (i : nat) (x : A) :
  (1 <= i <= length l)%nat ->
  l !! (length l - i)%nat = Some x ->
  Py.index l (- Z.of_nat i) = Ok x.
Proof.
  intros Hi H. unfold Py.index.
  destruct (Z.ltb_spec (- Z.of_nat i) 0) as [_|Hnn]; [|lia].
  destruct (Z.ltb_spec (- Z.of_nat i + Z.of_nat (length l)) 0) as [Hneg|_]; [lia|].
  destruct (Z.leb_spec (Z.of_nat (length l)) (- Z.of_nat i + Z.of_nat (length l)))
    as [Hge|_]; [lia|].
  cbn. replace (Z.to_nat (- Z.of_nat i + Z.of_nat (length l))) with (length l - i)%nat by lia.
  rewrite H. reflexivity.
Qed.

Lemma py_index_last {A} (l : list A) (x : A) :
  Py.index (l ++ [x]) (-1) = Ok x.
Proof.
  apply (py_index_from_end (l ++ [x]) 1 x).
  - rewrite length_app. cbn. lia.
  - rewrite length_app. cbn.
    replace (length l + 1 - 1)%nat with (length l + 0)%nat by lia.
    rewrite lookup_app_r by lia.
    replace (length l + 0 - length l)%nat with 0%nat by lia. reflexivity.
Qed.

Lemma py_index_zero {A} (x : A) (l : list A) : Py.index (x :: l) 0 = Ok x.
Proof. exact (py_index_nonneg (x :: l) 0 x eq_refl). Qed.

Lemma py_index_empty {A} (i : Z) : Py.index (@nil A) i = Raise IndexError.
Proof.
  unfold Py.index. destruct (_ || _); [reflexivity|].
  rewrite lookup_nil. reflexivity.
Qed.

Lemma fold_left_add_shift (l : list Z) (a : Z) :
  fold_left Z.add l a = a + zsum l.
Proof.
  revert a. induction l as [|x l IH]; intros a; cbn.
  - lia.
  - rewrite IH. unfold zsum. cbn. lia.
Qed.

Lemma zsum_cons (x : Z) (l : list Z) : zsum (x :: l) = x + zsum l.
Proof. reflexivity. Qed.

Lemma py_sum_zsum (l : list Z) : Py.sum l = zsum l.
Proof. unfold Py.sum. rewrite fold_left_add_shift. lia. Qed.

Lemma py_count_nonneg (l : list Z) (x : Z) : 0 <= Py.count l x.
Proof.
  induction l as [|y l IH]; cbn; [lia|].
  destruct (y =? x); lia.
Qed.

(** ** Digit statistics *)

Lemma digit_counts_explicit (ticks : list Z) :
  digit_counts ticks = map (Py.count ticks) [0; 1; 2; 3; 4; 5; 6; 7; 8; 9].
Proof. reflexivity. Qed.

Lemma counts_index (ticks : list Z) (x : Z) :
  x ∈ Py.range 10 ->
  Py.index (digit_counts ticks) x = Ok (at_ (digit_counts ticks) x).
Proof.
  intros Hx. rewrite digit_counts_explicit.
  cbv [Py.range Py.range2] in Hx. cbn in Hx.
  repeat (apply elem_of_cons in Hx as [->|Hx]; [reflexivity|]).
  inversion Hx.
Qed.

Lemma indicator_sum (y : Z) (digits : list Z) :
  NoDup digits ->
  zsum (map (fun d => if y =? d then 1 else 0) digits)
  = if decide (y ∈ digits) then 1 else 0.
Proof.
  induction 1 as [|d digits Hd Hnd IH]; cbn [map].
  - reflexivity.
  - rewrite zsum_cons, IH.
    destruct (Z.eqb_spec y d) as [->|Hne].
    + rewrite (decide_True (P := d ∈ d :: digits)) by apply list_elem_of_here.
      rewrite (decide_False (P := d ∈ digits)) by assumption. reflexivity.
    + destruct (decide (y ∈ digits)) as [Hin|Hnin].
      * rewrite (decide_True (P := y ∈ d :: digits))
          by (apply list_elem_of_further; assumption).
        reflexivity.
      * rewrite (decide_False (P := y ∈ d :: digits)); [reflexivity|].
        intros [?|?]%elem_of_cons; contradiction.
Qed.

Lemma zsum_map_add {A} (f g : A -> Z) (l : list A) :
  zsum (map (fun a => f a + g a) l) = zsum (map f l) + zsum (map g l).
Proof.
  induction l as [|a l IH]; cbn [map]; [reflexivity|].
  rewrite !zsum_cons, IH. lia.
Qed.

Lemma qualifying_counts (digits ticks : list Z) :
  NoDup digits ->
  qualifying digits ticks = zsum (map (Py.count ticks) digits).
Proof.
  intros Hnd. induction ticks as [|y ticks IH].
  - unfold qualifying. cbn. clear Hnd.
    induction digits as [|d ds IHd]; cbn [map]; [reflexivity|].
    rewrite zsum_cons, <- IHd. reflexivity.
  - cbn [Py.count].
    rewrite (zsum_map_add (fun d => if y =? d then 1 else 0) (Py.count ticks)).
    rewrite <- IH, indicator_sum by assumption.
    unfold qualifying. rewrite filter_cons.
    destruct (decide (y ∈ digits)); cbn [length]; lia.
Qed.

Lemma nodup_digits (digits : list Z) :
  bool_decide (NoDup digits) = true -> NoDup digits.
Proof. apply bool_decide_eq_true_1. Qed.

Lemma percent_share (digits ticks : list Z) :
  NoDup digits ->
  percent (Py.sum (map (Py.count ticks) digits)) (Z.of_nat (length ticks))
  = share digits ticks.
Proof.
  intros Hnd. unfold percent, share.
  rewrite py_sum_zsum, <- qualifying_counts by assumption. reflexivity.
Qed.

Lemma digit_stats_some (b : buffers) (symbol : string) (ticks : Py.deque Z) :
  tick_data b !! symbol = Some ticks ->
  (60 <= length (Py.items ticks))%nat ->
  digit_stats b symbol = Ok (Some {|
    freq := Py.sorted_desc (at_ (digit_counts (Py.items ticks))) (Py.range 10);
    under6 := share [0; 1; 2; 3; 4; 5] (Py.items ticks);
    under7 := share [0; 1; 2; 3; 4; 5; 6] (Py.items ticks);
    even := share [0; 2; 4; 6; 8] (Py.items ticks);
    odd := share [1; 3; 5; 7; 9] (Py.items ticks) |}).
Proof.
  intros Hb Hlen. unfold digit_stats. rewrite Hb. unfold Py.deque_len.
  destruct (Z.ltb_spec (Z.of_nat (length (Py.items ticks))) 60) as [Hlt|_]; [lia|].
  do 2 f_equal. rewrite digit_counts_explicit.
  f_equal.
  - exact (percent_share [0; 1; 2; 3; 4; 5] _ (nodup_digits [0; 1; 2; 3; 4; 5] eq_refl)).
  - exact (percent_share [0; 1; 2; 3; 4; 5; 6] _ (nodup_digits [0; 1; 2; 3; 4; 5; 6] eq_refl)).
  - exact (percent_share [0; 2; 4; 6; 8] _ (nodup_digits [0; 2; 4; 6; 8] eq_refl)).
  - exact (percent_share [1; 3; 5; 7; 9] _ (nodup_digits [1; 3; 5; 7; 9] eq_refl)).
Qed.

Lemma digit_stats_none (b : buffers) (symbol : string) (ticks : Py.deque Z) :
  tick_data b !! symbol = Some ticks ->
  (length (Py.items ticks) < 60)%nat ->
  digit_stats b symbol = Ok None.
Proof.
  intros Hb Hlen. unfold digit_stats. rewrite Hb. unfold Py.deque_len.
  destruct (Z.ltb_spec (Z.of_nat (length (Py.items ticks))) 60) as [_|Hge]; [|lia].
  reflexivity.
Qed.

(** C2.  For an instrument with a digit buffer, [digit_stats] returns [None]
    exactly when the buffer holds fewer than 60 samples; with n >= 60
    samples, each of under6, under7, even and odd is the number of samples
    whose digit is in the statistic's set, divided by n, times 100. *)
Theorem digit_stats_threshold_and_shares
    (b : buffers) (symbol : string) (ticks : Py.deque Z) :
  tick_data b !! symbol = Some ticks ->
  (digit_stats b symbol = Ok None <-> (length (Py.items ticks) < 60)%nat) /\
  ((60 <= length (Py.items ticks))%nat ->
   exists s, digit_stats b symbol = Ok (Some s)
     /\ under6 s = share [0; 1; 2; 3; 4; 5] (Py.items ticks)
     /\ under7 s = share [0; 1; 2; 3; 4; 5; 6] (Py.items ticks)
     /\ even s = share [0; 2; 4; 6; 8] (Py.items ticks)
     /\ odd s = share [1; 3; 5; 7; 9] (Py.items ticks)).
Proof.
  intros Hb. split.
  - split.
    + intros Hnone.
      destruct (Nat.lt_ge_cases (length (Py.items ticks)) 60) as [Hlt|Hge]; [exact Hlt|].
      rewrite (digit_stats_some b symbol ticks Hb Hge) in Hnone. discriminate.
    + apply digit_stats_none; assumption.
  - intros Hge. eexists. split; [apply (digit_stats_some b symbol ticks Hb Hge)|].
    cbn. repeat split.
Qed.

(** ** Frequency ranking *)

Lemma insert_desc_perm (key : Z -> Z) (x : Z) (l : list Z) :
  Permutation (Py.insert_desc key x l) (x :: l).
Proof.
  induction l as [|y l IH]; cbn; [reflexivity|].
  destruct (key x <? key y); [|reflexivity].
  rewrite IH. apply perm_swap.
Qed.

Lemma sorted_desc_perm (key : Z -> Z) (l : list Z) :
  Permutation (Py.sorted_desc key l) l.
Proof.
  induction l as [|x l IH]; cbn; [reflexivity|].
  rewrite insert_desc_perm, IH. reflexivity.
Qed.

Lemma insert_desc_sorted (key : Z -> Z) (x : Z) (l : list Z) :
  StronglySorted (ranked_before key) l ->
  Forall (fun y => x < y) l ->
  StronglySorted (ranked_before key) (Py.insert_desc key x l).
Proof.
  induction 1 as [|y l Hs IH Hy]; intros Hx; cbn.
  - repeat constructor.
  - apply Forall_cons in Hx as [Hxy Hx].
    destruct (Z.ltb_spec (key x) (key y)) as [Hlt|Hge].
    + constructor; [apply IH, Hx|].
      rewrite insert_desc_perm. constructor; [left; exact Hlt|exact Hy].
    + constructor; [constructor; assumption|].
      constructor.
      * unfold ranked_before. lia.
      * rewrite Forall_forall in Hy, Hx |- *. intros z Hz.
        specialize (Hy z Hz). specialize (Hx z Hz).
        unfold ranked_before in *. lia.
Qed.

Lemma sorted_desc_sorted (key : Z -> Z) (l : list Z) :
  StronglySorted Z.lt l ->
  StronglySorted (ranked_before key) (Py.sorted_desc key l).
Proof.
  induction 1 as [|x l Hs IH Hx]; cbn; [constructor|].
  apply insert_desc_sorted; [exact IH|].
  rewrite sorted_desc_perm. exact Hx.
Qed.

Lemma sorted_desc_head (key : Z -> Z) (l : list Z) (top : Z) (rest : list Z) :
  StronglySorted Z.lt l ->
  Py.sorted_desc key l = top :: rest ->
  top ∈ l /\
  forall d, d ∈ l -> key d <= key top /\ (key d = key top -> top <= d).
Proof.
  intros Hl Heq.
  pose proof (sorted_desc_sorted key l Hl) as Hs.
  pose proof (sorted_desc_perm key l) as Hp.
  rewrite Heq in Hs, Hp.
  apply StronglySorted_inv in Hs as [_ Htop].
  split.
  - rewrite <- Hp. apply list_elem_of_here.
  - intros d Hd. rewrite <- Hp in Hd.
    apply elem_of_cons in Hd as [->|Hd]; [lia|].
    rewrite Forall_forall in Htop. specialize (Htop d Hd).
    unfold ranked_before in Htop. lia.
Qed.

Lemma range10_sorted : StronglySorted Z.lt (Py.range 10).
Proof.
  cbv [Py.range Py.range2]. cbn.
  repeat (constructor; [|repeat (constructor; [reflexivity|]); constructor]).
  constructor.
Qed.

Lemma range10_digits (d : Z) : d ∈ Py.range 10 <-> is_digit d.
Proof.
  unfold Py.range, Py.range2, is_digit. rewrite elem_of_seqZ. lia.
Qed.

Lemma at_counts (ticks : list Z) (d : Z) :
  is_digit d -> at_ (digit_counts ticks) d = Py.count ticks d.
Proof.
  intros Hd. apply range10_digits in Hd.
  cbv [Py.range Py.range2] in Hd. cbn in Hd.
  repeat (apply elem_of_cons in Hd as [->|Hd]; [reflexivity|]).
  inversion Hd.
Qed.

Lemma digit_stats_inv (b : buffers) (symbol : string) (s : stats) :
  digit_stats b symbol = Ok (Some s) ->
  exists ticks, tick_data b !! symbol = Some ticks
    /\ (60 <= length (Py.items ticks))%nat
    /\ freq s = Py.sorted_desc (at_ (digit_counts (Py.items ticks))) (Py.range 10).
Proof.
  unfold digit_stats. destruct (tick_data b !! symbol) as [ticks|]; [|discriminate].
  unfold Py.deque_len.
  destruct (Z.ltb_spec (Z.of_nat (length (Py.items ticks))) 60) as [Hlt|Hge];
    [discriminate|].
  intros [= <-]. exists ticks. repeat split. lia.
Qed.

(** C5.  In the ranking returned by [digit_stats], the digit ranked first
    occurs at least as often as every other digit, and every digit that
    occurs as often is not smaller: among the most frequent digits the first
    one is the smallest.  It is the entry digit of the signals of
    [signal_v1] and [signal_v2]. *)
Theorem digit_stats_top_is_smallest_most_frequent
    (b : buffers) (symbol : string) (s : stats) :
  digit_stats b symbol = Ok (Some s) ->
  exists ticks top rest,
    tick_data b !! symbol = Some ticks
    /\ freq s = top :: rest
    /\ is_digit top
    /\ (forall d, is_digit d ->
         Py.count (Py.items ticks) d <= Py.count (Py.items ticks) top
         /\ (Py.count (Py.items ticks) d = Py.count (Py.items ticks) top -> top <= d))
    /\ (forall name v, signal_v1 b symbol name = Ok (Some v) -> entry (fst v) = Some top)
    /\ (forall name v, signal_v2 b symbol name = Ok (Some v) -> entry (fst v) = Some top).
Proof.
  intros Hs. pose proof Hs as Hstats.
  apply digit_stats_inv in Hs as (ticks & Hb & _ & Hf).
  destruct (freq s) as [|top rest] eqn:Hfreq.
  - pose proof (sorted_desc_perm (at_ (digit_counts (Py.items ticks))) (Py.range 10)) as Hp.
    rewrite <- Hf in Hp. apply Permutation_nil in Hp. discriminate.
  - symmetry in Hf.
    destruct (sorted_desc_head _ _ _ _ range10_sorted Hf) as [Htop Hall].
    apply range10_digits in Htop.
    exists ticks, top, rest.
    split; [exact Hb|]. split; [reflexivity|]. split; [exact Htop|].
    split; [|split].
    + intros d Hd. pose proof Hd as Hin. apply range10_digits, Hall in Hin.
      rewrite !at_counts in Hin by assumption. exact Hin.
    + intros name v. unfold signal_v1. rewrite Hstats. cbn [mbind res_bind].
      destruct (Qle_bool 60 (under6 s)); [|discriminate].
      rewrite Hfreq, py_index_zero. cbn [mbind res_bind]. intros [= <-]. reflexivity.
    + intros name v. unfold signal_v2. rewrite Hstats. cbn [mbind res_bind].
      destruct (Qle_bool 60 (under7 s)); [|discriminate].
      rewrite Hfreq, py_index_zero. cbn [mbind res_bind]. intros [= <-]. reflexivity.
Qed.

(** ** Deques *)

Lemma deque_append_maxlen {A} (x : A) (d : Py.deque A) :
  Py.maxlen (Py.deque_append x d) = Py.maxlen d.
Proof. reflexivity. Qed.

Lemma deque_append_room {A} (x : A) (d : Py.deque A) :
  (length (Py.items d) < Py.maxlen d)%nat ->
  Py.items (Py.deque_append x d) = Py.items d ++ [x].
Proof.
  intros Hlt. unfold Py.deque_append. cbn [Py.items].
  rewrite length_app. cbn [length].
  destruct (Nat.ltb_spec (Py.maxlen d) (length (Py.items d) + 1)); [lia|reflexivity].
Qed.

Lemma deque_append_full {A} (x oldest : A) (others : list A) (d : Py.deque A) :
  Py.items d = oldest :: others ->
  length (Py.items d) = Py.maxlen d ->
  Py.items (Py.deque_append x d) = others ++ [x].
Proof.
  intros Hitems Hlen. unfold Py.deque_append. cbn [Py.items].
  rewrite length_app. cbn [length].
  destruct (Nat.ltb_spec (Py.maxlen d) (length (Py.items d) + 1)); [|lia].
  rewrite Hitems. reflexivity.
Qed.

Lemma deque_append_length {A} (x : A) (d : Py.deque A) :
  (length (Py.items d) <= Py.maxlen d)%nat ->
  (length (Py.items (Py.deque_append x d)) <= Py.maxlen d)%nat.
Proof.
  intros Hle. unfold Py.deque_append. cbn [Py.items].
  destruct (Nat.ltb_spec (Py.maxlen d) (length (Py.items d ++ [x]))) as [Hlt|Hge].
  - rewrite length_drop, length_app. cbn [length]. lia.
  - exact Hge.
Qed.

Lemma recent_length {A} (n : nat) (l : list A) :
  length (recent n l) = Nat.min n (length l).
Proof. unfold recent. rewrite length_drop. lia. Qed.

Lemma recent_snoc {A} (n : nat) (l : list A) (x : A) (d : Py.deque A) :
  Py.maxlen d = n -> (0 < n)%nat ->
  Py.items d = recent n l ->
  Py.items (Py.deque_append x d) = recent n (l ++ [x]).
Proof.
  intros Hmax Hn Hitems. unfold Py.deque_append. cbn [Py.items].
  rewrite Hitems, Hmax, length_app, recent_length. cbn [length]. unfold recent.
  rewrite length_app. cbn [length].
  destruct (Nat.ltb_spec n (Nat.min n (length l) + 1)) as [Hlt|Hge].
  - rewrite (drop_app_le (drop (length l - n) l) [x] 1)
      by (rewrite length_drop; lia).
    rewrite drop_drop, (drop_app_le l [x]) by lia.
    do 2 f_equal. lia.
  - replace (length l - n)%nat with 0%nat by lia.
    replace (length l + 1 - n)%nat with 0%nat by lia. reflexivity.
Qed.

(** ** Tick ingestor *)

Lemma int_of_char_digit (c : ascii) (g : Z) :
  Py.int_of_char c = Ok g -> is_digit g.
Proof.
  unfold Py.int_of_char, is_digit.
  destruct (Z.leb_spec 48 (Z.of_nat (nat_of_ascii c))); cbn; [|discriminate].
  destruct (Z.leb_spec (Z.of_nat (nat_of_ascii c)) 57); cbn; [|discriminate].
  intros [= <-]. lia.
Qed.

Lemma last_digit_is_digit (p : pyfloat) (g : Z) :
  last_digit p = Ok g -> is_digit g.
Proof.
  unfold last_digit.
  destruct (Py.index (Py.split "." (repr p)) (-1)) as [seg|e]; cbn; [|discriminate].
  destruct (Py.index (list_ascii_of_string seg) (-1)) as [ch|e]; cbn; [|discriminate].
  apply int_of_char_digit.
Qed.

Lemma markets_lookup {A} (d : Py.deque A) (s : string) :
  (list_to_map (map (fun m => (fst m, d)) MARKETS) : gmap string (Py.deque A)) !! s
  = if bool_decide (s ∈ symbols) then Some d else None.
Proof.
  cbn.
  destruct (decide (s = "R_10")) as [->|?]; [reflexivity|].
  rewrite lookup_insert_ne by congruence.
  destruct (decide (s = "1HZ10V")) as [->|?]; [reflexivity|].
  rewrite lookup_insert_ne by congruence.
  destruct (decide (s = "R_25")) as [->|?]; [reflexivity|].
  rewrite lookup_insert_ne by congruence.
  destruct (decide (s = "1HZ25V")) as [->|?]; [reflexivity|].
  rewrite lookup_insert_ne by congruence.
  rewrite lookup_empty, bool_decide_eq_false_2; [reflexivity|].
  unfold symbols. cbn. rewrite !elem_of_cons, elem_of_nil. tauto.
Qed.

Lemma markets_lookup_some {A} (d d' : Py.deque A) (s : string) :
  (list_to_map (map (fun m => (fst m, d)) MARKETS) : gmap string (Py.deque A)) !! s
  = Some d' -> d' = d /\ s ∈ symbols.
Proof. rewrite markets_lookup. case_bool_decide; [|discriminate]. intros [= ->]. auto. Qed.

Lemma initial_consistent : consistent initial_buffers.
Proof.
  assert (forall A (d : Py.deque A) s,
    is_Some ((list_to_map (map (fun m => (fst m, d)) MARKETS)
              : gmap string (Py.deque A)) !! s) <-> s ∈ symbols) as Hdom.
  { intros A d s. rewrite markets_lookup. case_bool_decide as Hs; split; intros H.
    - exact Hs.
    - eexists; reflexivity.
    - destruct H; discriminate.
    - contradiction. }
  unfold consistent, initial_buffers. cbn [tick_data price_history].
  split; [apply Hdom|]. split; [apply Hdom|].
  split; intros s d H; apply markets_lookup_some in H as [-> _]; reflexivity.
Qed.

Section IngestorProperties.

Variable float_of_str : string -> option pyfloat.

Lemma read_tick_inv (b : buffers) (msg : message)
    (p : pyfloat) (s : string) (dq : Py.deque Z) (g : Z) :
  read_tick float_of_str b msg = Ok (Some (p, s, dq, g)) ->
  exists o t q,
    msg = Parsed (JObj o)
    /\ assoc "tick" o = Some (JObj t)
    /\ assoc "quote" t = Some q
    /\ assoc "symbol" t = Some (JStr s)
    /\ to_float float_of_str q = Ok p
    /\ tick_data b !! s = Some dq
    /\ last_digit p = Ok g.
Proof.
  unfold read_tick. destruct msg as [|d]; cbn; [discriminate|].
  destruct d as [|b0|f0|s0|l|o]; cbn; try discriminate.
  - destruct (substring_of "tick" s0); discriminate.
  - destruct (existsb (is_str "tick") l); discriminate.
  - destruct (assoc "tick" o) as [t|] eqn:Ht; cbn; [|discriminate].
    destruct t as [|?|?|?|?|t]; cbn; try discriminate.
    destruct (assoc "quote" t) as [q|] eqn:Hq; cbn; [|discriminate].
    destruct (to_float float_of_str q) as [p'|] eqn:Hp; cbn; [|discriminate].
    destruct (assoc "symbol" t) as [sy|] eqn:Hs; cbn; [|discriminate].
    destruct sy as [|?|?|k|?|?]; cbn; try discriminate.
    destruct (tick_data b !! k) as [dq'|] eqn:Hd; cbn; [|discriminate].
    destruct (last_digit p') as [g'|] eqn:Hg; cbn; [|discriminate].
    intros [= -> -> -> ->]. exists o, t, q. repeat split; assumption.
Qed.

Lemma tick_of_inv (msg : message) (s : string) (g : Z) (p : pyfloat) :
  tick_of float_of_str msg = Some (s, g, p) ->
  exists o t q,
    msg = Parsed (JObj o)
    /\ assoc "tick" o = Some (JObj t)
    /\ assoc "quote" t = Some q
    /\ assoc "symbol" t = Some (JStr s)
    /\ s ∈ symbols
    /\ to_float float_of_str q = Ok p
    /\ last_digit p = Ok g.
Proof.
  unfold tick_of. destruct msg as [|d]; [discriminate|].
  destruct d as [|?|?|?|?|o]; try discriminate.
  destruct (assoc "tick" o) as [t|] eqn:Ht; [|discriminate].
  destruct t as [|?|?|?|?|t]; try discriminate.
  destruct (assoc "quote" t) as [q|] eqn:Hq; [|discriminate].
  destruct (assoc "symbol" t) as [sy|] eqn:Hs; [|discriminate].
  destruct sy as [|?|?|k|?|?]; try discriminate.
  case_bool_decide as Hk; [|discriminate].
  destruct (to_float float_of_str q) as [p'|] eqn:Hp; [|discriminate].
  destruct (last_digit p') as [g'|] eqn:Hg; [|discriminate].
  intros [= -> -> ->]. exists o, t, q. repeat split; assumption.
Qed.

Lemma read_tick_of_tick (b : buffers) (msg : message)
    (s : string) (g : Z) (p : pyfloat) (dq : Py.deque Z) :
  tick_of float_of_str msg = Some (s, g, p) ->
  tick_data b !! s = Some dq ->
  read_tick float_of_str b msg = Ok (Some (p, s, dq, g)).
Proof.
  intros (o & t & q & -> & Ht & Hq & Hs & _ & Hp & Hg)%tick_of_inv Hd.
  unfold read_tick. cbn. rewrite Ht. cbn. rewrite Hq. cbn. rewrite Hp. cbn.
  rewrite Hs. cbn. rewrite Hd. cbn. rewrite Hg. reflexivity.
Qed.

Lemma on_message_tick (b : buffers) (msg : message)
    (s : string) (g : Z) (p : pyfloat) :
  consistent b ->
  tick_of float_of_str msg = Some (s, g, p) ->
  exists dq pq,
    tick_data b !! s = Some dq
    /\ price_history b !! s = Some pq
    /\ on_message float_of_str b msg
       = (Buffers (<[s := Py.deque_append g dq]> (tick_data b))
                  (<[s := Py.deque_append p pq]> (price_history b)), Ok ()).
Proof.
  intros (Hdom1 & Hdom2 & _) Htick.
  pose proof (tick_of_inv _ _ _ _ Htick) as (o & t & q & _ & _ & _ & _ & Hin & _).
  destruct (proj2 (Hdom1 s) Hin) as [dq Hdq].
  destruct (proj2 (Hdom2 s) Hin) as [pq Hpq].
  exists dq, pq. split; [exact Hdq|]. split; [exact Hpq|].
  unfold on_message. rewrite (read_tick_of_tick b msg s g p dq Htick Hdq).
  cbn [price_history]. rewrite Hpq. reflexivity.
Qed.

Lemma on_message_no_tick (b : buffers) (msg : message) :
  consistent b ->
  tick_of float_of_str msg = None ->
  fst (on_message float_of_str b msg) = b.
Proof.
  intros (Hdom1 & _) Hnone. unfold on_message.
  destruct (read_tick float_of_str b msg) as [[[[[p s] dq] g]|]|e] eqn:Hread;
    [|reflexivity..].
  exfalso.
  apply read_tick_inv in Hread as (o & t & q & -> & Ht & Hq & Hs & Hp & Hd & Hg).
  assert (s ∈ symbols) as Hin by (apply Hdom1; eexists; exact Hd).
  unfold tick_of in Hnone. rewrite Ht, Hq, Hs, Hp, Hg in Hnone.
  rewrite bool_decide_eq_true_2 in Hnone by exact Hin. discriminate.
Qed.

Lemma insert_consistent {A} (m : gmap string (Py.deque A)) (s : string)
    (x : A) (d : Py.deque A) :
  m !! s = Some d ->
  (forall k, is_Some (m !! k) <-> k ∈ symbols) ->
  (forall k e, m !! k = Some e -> Py.maxlen e = 120%nat) ->
  (forall k, is_Some (<[s := Py.deque_append x d]> m !! k) <-> k ∈ symbols)
  /\ (forall k e, <[s := Py.deque_append x d]> m !! k = Some e -> Py.maxlen e = 120%nat).
Proof.
  intros Hs Hdom Hmax. split.
  - intros k. rewrite <- Hdom. destruct (decide (s = k)) as [->|Hne].
    + rewrite lookup_insert_eq, Hs. split; intros _; eexists; reflexivity.
    + rewrite lookup_insert_ne by exact Hne. reflexivity.
  - intros k e. destruct (decide (s = k)) as [->|Hne].
    + rewrite lookup_insert_eq. intros [= <-].
      rewrite deque_append_maxlen. exact (Hmax _ _ Hs).
    + rewrite lookup_insert_ne by exact Hne. apply Hmax.
Qed.

Lemma on_message_consistent (b : buffers) (msg : message) :
  consistent b -> consistent (fst (on_message float_of_str b msg)).
Proof.
  intros Hc. destruct (tick_of float_of_str msg) as [[[s g] p]|] eqn:Htick.
  - destruct (on_message_tick b msg s g p Hc Htick) as (dq & pq & Hdq & Hpq & ->).
    destruct Hc as (Hd1 & Hd2 & Hm1 & Hm2). cbn [fst].
    destruct (insert_consistent _ s g dq Hdq Hd1 Hm1) as [? ?].
    destruct (insert_consistent _ s p pq Hpq Hd2 Hm2) as [? ?].
    repeat split; cbn [tick_data price_history]; firstorder.
  - rewrite on_message_no_tick by assumption. exact Hc.
Qed.

Lemma collect_ticks_snoc (b : buffers) (msgs : list message) (msg : message) :
  collect_ticks float_of_str b (msgs ++ [msg])
  = fst (on_message float_of_str (collect_ticks float_of_str b msgs) msg).
Proof. unfold collect_ticks. rewrite fold_left_app. reflexivity. Qed.

Lemma collect_ticks_consistent (msgs : list message) :
  consistent (collect_ticks float_of_str initial_buffers msgs).
Proof.
  induction msgs as [|msg msgs IH] using rev_ind.
  - exact initial_consistent.
  - rewrite collect_ticks_snoc. apply on_message_consistent, IH.
Qed.


Lemma digits_for_snoc (sym : string) (msgs : list message) (msg : message) :
  digits_for float_of_str sym (msgs ++ [msg])
  = digits_for float_of_str sym msgs
    ++ match tick_of float_of_str msg with
       | Some (s, g, _) => if String.eqb s sym then [g] else []
       | None => []
       end.
Proof.
  unfold digits_for. rewrite omap_app. f_equal. cbn.
  destruct (tick_of float_of_str msg) as [[[s g] p]|]; [|reflexivity].
  destruct (String.eqb s sym); reflexivity.
Qed.

Lemma prices_for_snoc (sym : string) (msgs : list message) (msg : message) :
  prices_for float_of_str sym (msgs ++ [msg])
  = prices_for float_of_str sym msgs
    ++ match tick_of float_of_str msg with
       | Some (s, _, p) => if String.eqb s sym then [p] else []
       | None => []
       end.
Proof.
  unfold prices_for. rewrite omap_app. f_equal. cbn.
  destruct (tick_of float_of_str msg) as [[[s g] p]|]; [|reflexivity].
  destruct (String.eqb s sym); reflexivity.
Qed.

Lemma collect_ticks_content (msgs : list message) (sym : string) :
  (forall d, tick_data (collect_ticks float_of_str initial_buffers msgs) !! sym = Some d ->
     Py.items d = recent 120 (digits_for float_of_str sym msgs))
  /\ (forall d, price_history (collect_ticks float_of_str initial_buffers msgs) !! sym = Some d ->
     Py.items d = recent 120 (prices_for float_of_str sym msgs)).
Proof.
  induction msgs as [|msg msgs IH] using rev_ind.
  - split; intros d Hd; apply markets_lookup_some in Hd as [-> _]; reflexivity.
  - rewrite collect_ticks_snoc, digits_for_snoc, prices_for_snoc.
    pose proof (collect_ticks_consistent msgs) as Hc.
    destruct IH as [IHd IHp].
    destruct (tick_of float_of_str msg) as [[[s g] p]|] eqn:Htick.
    + destruct (on_message_tick _ msg s g p Hc Htick) as (dq & pq & Hdq & Hpq & ->).
      destruct Hc as (_ & _ & Hm1 & Hm2). cbn [fst tick_data price_history].
      destruct (String.eqb_spec s sym) as [->|Hne].
      * rewrite !lookup_insert_eq. split; intros d [= <-].
        -- apply recent_snoc; [exact (Hm1 _ _ Hdq)|lia|exact (IHd _ Hdq)].
        -- apply recent_snoc; [exact (Hm2 _ _ Hpq)|lia|exact (IHp _ Hpq)].
      * rewrite !lookup_insert_ne, !app_nil_r by exact Hne. split; assumption.
    + rewrite on_message_no_tick, !app_nil_r by assumption. split; assumption.
Qed.

Lemma digits_for_digits (sym : string) (msgs : list message) :
  Forall is_digit (digits_for float_of_str sym msgs).
Proof.
  induction msgs as [|msg msgs IH] using rev_ind; [constructor|].
  rewrite digits_for_snoc. apply Forall_app. split; [exact IH|].
  destruct (tick_of float_of_str msg) as [[[s g] p]|] eqn:Htick; [|constructor].
  destruct (String.eqb s sym); [|constructor].
  apply tick_of_inv in Htick as (_ & _ & _ & _ & _ & _ & _ & _ & _ & Hg).
  constructor; [exact (last_digit_is_digit _ _ Hg)|constructor].
Qed.

Lemma collect_ticks_digits (msgs : list message) (sym : string) (d : Py.deque Z) :
  tick_data (collect_ticks float_of_str initial_buffers msgs) !! sym = Some d ->
  Forall is_digit (Py.items d).
Proof.
  intros Hd. rewrite (proj1 (collect_ticks_content msgs sym) d Hd).
  unfold recent. apply Forall_drop, digits_for_digits.
Qed.


(** C8.  After any sequence of stream messages, every configured instrument
    has a digit buffer and a price buffer of at most 120 elements, and each
    holds the most recent 120 values appended for the instrument, in arrival
    order; an append to a deque that is at capacity drops its oldest element
    and keeps the others in order. *)
Theorem buffers_bounded_fifo (msgs : list message) (sym : string) :
  sym ∈ symbols ->
  (exists dq pq,
     tick_data (collect_ticks float_of_str initial_buffers msgs) !! sym = Some dq
     /\ price_history (collect_ticks float_of_str initial_buffers msgs) !! sym = Some pq
     /\ (length (Py.items dq) <= 120)%nat
     /\ (length (Py.items pq) <= 120)%nat
     /\ Py.items dq = recent 120 (digits_for float_of_str sym msgs)
     /\ Py.items pq = recent 120 (prices_for float_of_str sym msgs))
  /\ (forall (A : Type) (x oldest : A) (others : list A) (d : Py.deque A),
       Py.items d = oldest :: others ->
       length (Py.items d) = Py.maxlen d ->
       Py.items (Py.deque_append x d) = others ++ [x]).
Proof.
  intros Hsym. split; [|intros A x oldest others d; apply deque_append_full].
  destruct (collect_ticks_consistent msgs) as (Hd1 & Hd2 & _).
  destruct (proj2 (Hd1 sym) Hsym) as [dq Hdq].
  destruct (proj2 (Hd2 sym) Hsym) as [pq Hpq].
  destruct (collect_ticks_content msgs sym) as [Hcd Hcp].
  exists dq, pq. split; [exact Hdq|]. split; [exact Hpq|].
  rewrite (Hcd dq Hdq), (Hcp pq Hpq), !recent_length.
  repeat split; lia.
Qed.

Lemma read_tick_shaped (b : buffers) (msg : message)
    (p : pyfloat) (s : string) (dq : Py.deque Z) (g : Z) :
  read_tick float_of_str b msg = Ok (Some (p, s, dq, g)) ->
  tick_shaped msg = true.
Proof.
  intros (o & t & q & -> & Ht & Hq & Hs & _)%read_tick_inv.
  unfold tick_shaped. rewrite Ht. cbn. rewrite Hq, Hs. reflexivity.
Qed.

Lemma read_tick_none (b : buffers) (msg : message) :
  read_tick float_of_str b msg = Ok None <->
  exists d, msg = Parsed d /\ contains d "tick" = Ok false.
Proof.
  unfold read_tick. split.
  - destruct msg as [|d]; cbn; [discriminate|].
    destruct (contains d "tick") as [[|]|e] eqn:Hc; cbn; [|eauto|discriminate].
    destruct (getitem d "tick") as [t|]; cbn; [|discriminate].
    destruct (getitem t "quote") as [q|]; cbn; [|discriminate].
    destruct (to_float float_of_str q) as [p|]; cbn; [|discriminate].
    destruct (getitem t "symbol") as [sy|]; cbn; [|discriminate].
    destruct (lookup_symbol (tick_data b) sy) as [kd|]; cbn; [|discriminate].
    destruct (last_digit p); cbn; discriminate.
  - intros (d & -> & Hc). cbn. rewrite Hc. reflexivity.
Qed.

(** C9, as the program has it.  A message that is not of the shape
    [{tick: {symbol, quote}}] leaves both dictionaries of buffers as they
    were; its processing ends without an exception exactly when
    [json.loads] accepts it and ["tick" in d] is false. *)
Theorem non_tick_message_leaves_buffers (b : buffers) (msg : message) :
  tick_shaped msg = false ->
  fst (on_message float_of_str b msg) = b
  /\ (snd (on_message float_of_str b msg) = Ok () <->
      exists d, msg = Parsed d /\ contains d "tick" = Ok false).
Proof.
  intros Hshape. rewrite <- read_tick_none with (b := b). unfold on_message.
  destruct (read_tick float_of_str b msg) as [[[[[p s] dq] g]|]|e] eqn:Hread.
  - apply read_tick_shaped in Hread. congruence.
  - cbn. tauto.
  - cbn. split; [reflexivity|]. split; discriminate.
Qed.

End IngestorProperties.

(** ** Consistency of the digit statistics *)

Lemma qualifying_cons (digits : list Z) (y : Z) (ticks : list Z) :
  qualifying digits (y :: ticks)
  = (if decide (y ∈ digits) then 1 else 0) + qualifying digits ticks.
Proof.
  unfold qualifying. rewrite filter_cons.
  destruct (decide (y ∈ digits)); cbn [length]; lia.
Qed.

Lemma qualifying_subset (small large ticks : list Z) :
  small ⊆ large -> qualifying small ticks <= qualifying large ticks.
Proof.
  intros Hsub. induction ticks as [|y ticks IH]; [reflexivity|].
  rewrite !qualifying_cons.
  destruct (decide (y ∈ small)) as [Hin|_]; destruct (decide (y ∈ large)) as [_|Hnin];
    try lia.
  exfalso. apply Hnin, Hsub, Hin.
Qed.

Lemma qualifying_even_odd (ticks : list Z) :
  Forall is_digit ticks ->
  qualifying [0; 2; 4; 6; 8] ticks + qualifying [1; 3; 5; 7; 9] ticks
  = Z.of_nat (length ticks).
Proof.
  induction 1 as [|y ticks Hy _ IH]; [reflexivity|].
  rewrite !qualifying_cons. cbn [length].
  assert ((if decide (y ∈ [0; 2; 4; 6; 8]) then 1 else 0)
          + (if decide (y ∈ [1; 3; 5; 7; 9]) then 1 else 0) = 1) as Hone.
  { apply range10_digits in Hy. cbv [Py.range Py.range2] in Hy. cbn in Hy.
    repeat (apply elem_of_cons in Hy as [->|Hy]; [reflexivity|]).
    inversion Hy. }
  lia.
Qed.

Lemma percent_mono (a c n : Z) :
  a <= c -> 0 < n -> (percent a n <= percent c n)%Q.
Proof.
  intros Hac Hn. unfold percent, Qdiv.
  apply Qmult_le_compat_r; [|discriminate].
  apply Qmult_le_compat_r; [rewrite <- Zle_Qle; exact Hac|].
  apply Qinv_le_0_compat. change 0%Q with (inject_Z 0). rewrite <- Zle_Qle. lia.
Qed.

Lemma percent_whole (a c n : Z) :
  a + c = n -> 0 < n -> (percent a n + percent c n == 100)%Q.
Proof.
  intros <- Hn. unfold percent. rewrite inject_Z_plus in *.
  assert (~ (inject_Z a + inject_Z c == 0)%Q) as Hnz.
  { rewrite <- inject_Z_plus. change 0%Q with (inject_Z 0).
    rewrite inject_Z_injective. lia. }
  field. exact Hnz.
Qed.

Lemma stats_consistent (b : buffers) (symbol : string) (ticks : Py.deque Z) :
  tick_data b !! symbol = Some ticks ->
  Forall is_digit (Py.items ticks) ->
  (60 <= length (Py.items ticks))%nat ->
  exists s, digit_stats b symbol = Ok (Some s)
    /\ (under6 s <= under7 s)%Q
    /\ (even s + odd s == 100)%Q.
Proof.
  intros Hb Hdig Hlen. eexists. split; [exact (digit_stats_some b symbol ticks Hb Hlen)|].
  cbn [under6 under7 even odd]. unfold share. split.
  - apply percent_mono; [|lia].
    apply qualifying_subset. intros d Hd.
    repeat (apply elem_of_cons in Hd as [->|Hd]; [set_solver|]).
    inversion Hd.
  - apply percent_whole; [|lia]. apply qualifying_even_odd, Hdig.
Qed.

(** C7.  Whatever the stream has delivered, once the digit buffer of an
    instrument holds at least 60 samples the statistics [digit_stats]
    returns for it satisfy under6 <= under7 and even + odd = 100. *)
Theorem stats_under6_le_under7_even_odd_100
    (float_of_str : string -> option pyfloat) (msgs : list message)
    (symbol : string) (ticks : Py.deque Z) :
  tick_data (collect_ticks float_of_str initial_buffers msgs) !! symbol = Some ticks ->
  (60 <= length (Py.items ticks))%nat ->
  exists s,
    digit_stats (collect_ticks float_of_str initial_buffers msgs) symbol = Ok (Some s)
    /\ (under6 s <= under7 s)%Q
    /\ (even s + odd s == 100)%Q.
Proof.
  intros Hb Hlen. apply (stats_consistent _ symbol ticks Hb); [|exact Hlen].
  exact (collect_ticks_digits float_of_str msgs symbol ticks Hb).
Qed.

(** ** The last digit of a rendered float *)

Lemma split_nonempty (sep : ascii) (s : string) : Py.split sep s <> [].
Proof.
  destruct s as [|c s]; cbn; [discriminate|].
  destruct (Ascii.eqb c sep); [discriminate|].
  destruct (Py.split sep s); discriminate.
Qed.

Lemma append_nil_l (s : string) : ("" ++ s)%string = s.
Proof. reflexivity. Qed.

Lemma append_cons (c : ascii) (a s : string) :
  (String c a ++ s)%string = String c (a ++ s).
Proof. reflexivity. Qed.

Lemma append_assoc (a b c : string) :
  ((a ++ b) ++ c)%string = (a ++ (b ++ c))%string.
Proof.
  induction a as [|x a IH]; [reflexivity|].
  rewrite !append_cons, IH. reflexivity.
Qed.

Lemma split_app (sep : ascii) (a t : string) :
  Py.split sep (a ++ String sep t) = Py.split sep a ++ Py.split sep t.
Proof.
  induction a as [|c a IH].
  - rewrite append_nil_l. cbn. rewrite Ascii.eqb_refl. reflexivity.
  - rewrite append_cons. cbn. destruct (Ascii.eqb c sep); rewrite IH; [reflexivity|].
    pose proof (split_nonempty sep a) as Hne.
    destruct (Py.split sep a); [contradiction|reflexivity].
Qed.

Lemma split_dotless (t : string) : dotless t = true -> Py.split "." t = [t].
Proof.
  induction t as [|c t IH]; cbn; [reflexivity|].
  intros [Hc Ht]%andb_prop. apply negb_true_iff in Hc. rewrite Hc, (IH Ht).
  reflexivity.
Qed.

Lemma dotless_app (a t : string) :
  dotless (a ++ t) = dotless a && dotless t.
Proof.
  induction a as [|c a IH]; [reflexivity|].
  rewrite append_cons. cbn. rewrite IH, andb_assoc. reflexivity.
Qed.

Lemma chars_app (a t : string) :
  list_ascii_of_string (a ++ t) = list_ascii_of_string a ++ list_ascii_of_string t.
Proof.
  induction a as [|c a IH]; [reflexivity|].
  rewrite append_cons. cbn. rewrite IH. reflexivity.
Qed.

Lemma digits_text_snoc (ds : list Z) (d : Z) :
  digits_text (ds ++ [d]) = (digits_text ds ++ String (digit_char d) "")%string.
Proof.
  unfold digits_text. induction ds as [|x ds IH]; [reflexivity|].
  cbn. rewrite IH, append_cons. reflexivity.
Qed.

Lemma digit_char_dotless (d : Z) : is_digit d -> Ascii.eqb (digit_char d) "." = false.
Proof.
  intros Hd. apply range10_digits in Hd. cbv [Py.range Py.range2] in Hd. cbn in Hd.
  repeat (apply elem_of_cons in Hd as [->|Hd]; [reflexivity|]).
  inversion Hd.
Qed.

Lemma digits_text_dotless (ds : list Z) :
  Forall is_digit ds -> dotless (digits_text ds) = true.
Proof.
  induction 1 as [|d ds Hd _ IH]; [reflexivity|].
  unfold digits_text in *. cbn. rewrite (digit_char_dotless d Hd), IH. reflexivity.
Qed.

Lemma int_of_digit_char (d : Z) : is_digit d -> Py.int_of_char (digit_char d) = Ok d.
Proof.
  intros Hd. apply range10_digits in Hd. cbv [Py.range Py.range2] in Hd. cbn in Hd.
  repeat (apply elem_of_cons in Hd as [->|Hd]; [reflexivity|]).
  inversion Hd.
Qed.

Lemma snoc_last (ds : list Z) :
  ds <> [] -> exists front, ds = front ++ [List.last ds 0].
Proof. intros Hne. exists (removelast ds). apply app_removelast_last, Hne. Qed.

Lemma last_is_digit (ds : list Z) :
  Forall is_digit ds -> ds <> [] -> is_digit (List.last ds 0).
Proof.
  intros Hall Hne. destruct (snoc_last ds Hne) as [front Heq].
  rewrite Heq in Hall. apply Forall_app in Hall as [_ Hlast].
  apply Forall_cons in Hlast as [Hlast _]. exact Hlast.
Qed.

(** What [last_digit] computes when the text after the last point is
    [body] followed by the digits [ds]. *)
Lemma last_digit_tail (price : pyfloat) (head : list string) (body : string)
    (ds : list Z) :
  Py.split "." (repr price) = head ++ [(body ++ digits_text ds)%string] ->
  Forall is_digit ds -> ds <> [] ->
  last_digit price = Ok (List.last ds 0).
Proof.
  intros Hsplit Hall Hne. unfold last_digit.
  rewrite Hsplit, py_index_last. cbn.
  destruct (snoc_last ds Hne) as [front Heq].
  rewrite Heq at 1. rewrite digits_text_snoc, !chars_app. cbn [list_ascii_of_string].
  rewrite app_assoc, py_index_last. cbn.
  apply int_of_digit_char, last_is_digit; assumption.
Qed.

(** C10.  When [str(price)] is the rendering of a finite float, positional
    or scientific, [last_digit] does not raise and returns a digit: the last
    digit of the fraction for a positional rendering (0 for an integral
    value such as 100.0), the last digit of the exponent for a scientific
    one. *)
Theorem last_digit_of_rendering (price : pyfloat) (r : rendering) :
  repr price = render r ->
  well_formed r ->
  last_digit price = Ok (final_digit r)
  /\ is_digit (final_digit r)
  /\ (forall neg ip, r = Positional neg ip [0] -> last_digit price = Ok 0)
  /\ (forall neg ip fp eneg ex,
        r = Scientific neg ip fp eneg ex -> last_digit price = Ok (List.last ex 0)).
Proof.
  intros Hrepr Hwf.
  assert (last_digit price = Ok (final_digit r) /\ is_digit (final_digit r)) as [Hlast Hdig].
  { destruct r as [neg ip fp|neg ip fp eneg ex]; cbn [render final_digit] in *.
    - destruct Hwf as (Hip & Hfp & _ & Hne).
      split; [|apply last_is_digit; assumption].
      apply (last_digit_tail price (Py.split "." (sign_text neg ++ digits_text ip)) "" fp);
        [|assumption..].
      rewrite Hrepr.
      replace (sign_text neg ++ digits_text ip ++ "." ++ digits_text fp)%string
        with ((sign_text neg ++ digits_text ip) ++ String "." (digits_text fp))%string
        by (rewrite append_assoc; reflexivity).
      rewrite split_app.
      rewrite (split_dotless (digits_text fp)) by (apply digits_text_dotless, Hfp).
      reflexivity.
    - destruct Hwf as (Hip & Hfp & Hex & _ & Hne).
      split; [|apply last_is_digit; assumption].
      destruct fp as [|f fp].
      + apply (last_digit_tail price []
                 (sign_text neg ++ digits_text ip ++ "e" ++ (if eneg then "-" else "+")) ex);
          [|assumption..].
        rewrite Hrepr. cbn [app].
        replace (sign_text neg ++ digits_text ip ++ "" ++ "e"
                 ++ (if eneg then "-" else "+") ++ digits_text ex)%string
          with ((sign_text neg ++ digits_text ip ++ "e" ++ (if eneg then "-" else "+"))
                ++ digits_text ex)%string
          by (rewrite !append_assoc; reflexivity).
        apply split_dotless.
        rewrite !dotless_app, !digits_text_dotless by assumption.
        destruct neg, eneg; reflexivity.
      + apply (last_digit_tail price (Py.split "." (sign_text neg ++ digits_text ip))
                 (digits_text (f :: fp) ++ "e" ++ (if eneg then "-" else "+")) ex);
          [|assumption..].
        rewrite Hrepr.
        replace (sign_text neg ++ digits_text ip
                 ++ ("." ++ digits_text (f :: fp)) ++ "e"
                 ++ (if eneg then "-" else "+") ++ digits_text ex)%string
          with ((sign_text neg ++ digits_text ip)
                ++ String "."
                     ((digits_text (f :: fp) ++ "e" ++ (if eneg then "-" else "+"))
                      ++ digits_text ex))%string
          by (rewrite !append_assoc; reflexivity).
        rewrite split_app. f_equal. apply split_dotless.
        rewrite !dotless_app, !digits_text_dotless by assumption.
        destruct eneg; reflexivity. }
  split; [exact Hlast|]. split; [exact Hdig|]. split.
  - intros neg ip ->. exact Hlast.
  - intros neg ip fp eneg ex ->. exact Hlast.
Qed.

(** ** Slices *)

Lemma slice_from_negative {A} (l : list A) (n : nat) :
  (0 < n)%nat -> Py.slice_from l (- Z.of_nat n) = recent n l.
Proof.
  intros Hn. unfold Py.slice_from, recent.
  destruct (Z.ltb_spec (- Z.of_nat n) 0) as [_|Hge]; [|lia].
  f_equal. lia.
Qed.

Lemma slice_from_one {A} (x : A) (l : list A) : Py.slice_from (x :: l) 1 = l.
Proof.
  unfold Py.slice_from.
  replace (Z.to_nat (if 1 <? 0 then Z.max (1 + Z.of_nat (length (x :: l))) 0
                     else Z.min 1 (Z.of_nat (length (x :: l))))) with 1%nat
    by (cbn [length]; change (1 <? 0) with false; cbv iota; lia).
  reflexivity.
Qed.

(** ** MACD *)

Lemma ema_at_prefix (k : Q) (w : list Q) (v : Q) (t : nat) :
  (t < length w)%nat -> ema_at k (w ++ [v]) t = ema_at k w t.
Proof.
  induction t as [|t IH]; intros Ht.
  - destruct w; [cbn in Ht; lia|reflexivity].
  - cbn [ema_at]. rewrite IH by lia.
    rewrite (app_nth1 w [v] 0%Q Ht). reflexivity.
Qed.

Lemma ema_fold (k : Q) (e0 : Q) (rest : list Q) :
  fold_left (fun e v => (v * k + e * (1 - k))%Q) rest e0
  = ema_at k (e0 :: rest) (length rest).
Proof.
  induction rest as [|v rest IH] using rev_ind; [reflexivity|].
  rewrite fold_left_app, length_app, IH. cbn [fold_left length].
  replace (length rest + 1)%nat with (S (length rest)) by lia.
  cbn [ema_at].
  change (e0 :: rest ++ [v]) with ((e0 :: rest) ++ [v]).
  rewrite ema_at_prefix by (cbn [length]; lia).
  rewrite app_nth2 by (cbn [length]; lia).
  replace (S (length rest) - length (e0 :: rest))%nat with 0%nat by (cbn [length]; lia).
  reflexivity.
Qed.

Lemma ema_window (w : list Q) (p : Z) :
  w <> [] -> Qeq_bool (inject_Z (p + 1)) 0 = false ->
  ema w p = Ok (ema_reference p w).
Proof.
  intros Hw Hp. destruct w as [|e0 rest]; [contradiction|].
  unfold ema, fdiv. rewrite Hp. cbn [mbind res_bind].
  rewrite py_index_zero. cbn [mbind res_bind].
  rewrite slice_from_one. unfold ema_reference.
  cbn [length]. replace (S (length rest) - 1)%nat with (length rest) by lia.
  rewrite <- ema_fold. reflexivity.
Qed.

Lemma recent_nonempty {A} (n : nat) (l : list A) :
  (0 < n)%nat -> (n <= length l)%nat -> recent n l <> [].
Proof.
  intros Hn Hl Hnil. apply (f_equal length) in Hnil.
  rewrite recent_length in Hnil. cbn in Hnil. lia.
Qed.


(** ** Rounding *)

Lemma round_half_even_proper (x y : Q) :
  (x == y)%Q -> Py.round_half_even x = Py.round_half_even y.
Proof.
  intros H. unfold Py.round_half_even. cbv zeta.
  rewrite (Qfloor_comp x y H).
  assert (x - inject_Z (Qfloor y) == y - inject_Z (Qfloor y))%Q as Hd
    by (apply Qplus_comp; [exact H|reflexivity]).
  rewrite (Qcompare_comp _ _ Hd (1 # 2)%Q (1 # 2)%Q (Qeq_refl _)).
  reflexivity.
Qed.

Lemma round_proper (x y : Q) (n : nat) :
  (x == y)%Q -> Py.round x n = Py.round y n.
Proof.
  intros H. unfold Py.round.
  rewrite (round_half_even_proper (x * inject_Z (10 ^ Z.of_nat n))
                                  (y * inject_Z (10 ^ Z.of_nat n)))
    by (apply Qmult_comp; [exact H|reflexivity]).
  reflexivity.
Qed.



(** ** RSI *)

Lemma py_index_suffix {A} (pre w : list A) (i : Z) :
  1 <= i <= Z.of_nat (length w) ->
  Py.index (pre ++ w) (- i) = Py.index w (- i).
Proof.
  intros Hi. unfold Py.index. rewrite length_app.
  destruct (Z.ltb_spec (- i) 0) as [_|Hge]; [|lia].
  destruct (Z.ltb_spec (- i + Z.of_nat (length pre + length w)) 0) as [Hneg|_]; [lia|].
  destruct (Z.leb_spec (Z.of_nat (length pre + length w))
                       (- i + Z.of_nat (length pre + length w))) as [Hbig|_]; [lia|].
  destruct (Z.ltb_spec (- i + Z.of_nat (length w)) 0) as [Hneg|_]; [lia|].
  destruct (Z.leb_spec (Z.of_nat (length w)) (- i + Z.of_nat (length w))) as [Hbig|_];
    [lia|].
  cbn [orb].
  rewrite lookup_app_r by lia.
  replace (Z.to_nat (- i + Z.of_nat (length pre + length w)) - length pre)%nat
    with (Z.to_nat (- i + Z.of_nat (length w))) by lia.
  reflexivity.
Qed.

Lemma rsi_loop_suffix (pre w : list Q) (idx : list Z) (gains losses : list Q) :
  Forall (fun i => 1 <= i /\ i + 1 <= Z.of_nat (length w)) idx ->
  rsi_loop (pre ++ w) idx gains losses = rsi_loop w idx gains losses.
Proof.
  intros Hidx. revert gains losses.
  induction Hidx as [|i idx [Hi1 Hi2] _ IH]; intros gains losses; [reflexivity|].
  cbn [rsi_loop].
  replace (- i - 1) with (- (i + 1)) by lia.
  rewrite !py_index_suffix by lia.
  destruct (Py.index w (- i)) as [a|]; [|reflexivity].
  destruct (Py.index w (- (i + 1))) as [c|]; [|reflexivity].
  cbn [mbind res_bind]. apply IH.
Qed.

Lemma rsi_loop_window (w : list Q) :
  length w = 15%nat ->
  rsi_loop w (Py.range2 1 (14 + 1)) [] []
  = Ok (rev (map (fun d => Py.fmax d 0) (differences w)),
        rev (map (fun d => Py.fabs (Py.fmin d 0)) (differences w))).
Proof.
  intros Hlen.
  do 15 (destruct w as [|? w]; [discriminate|]).
  destruct w; [|discriminate].
  reflexivity.
Qed.

Lemma recent_split {A} (n : nat) (l : list A) :
  l = take (length l - n) l ++ recent n l.
Proof. unfold recent. symmetry. apply take_drop. Qed.

Lemma rsi_loop_recent (prices : list Q) :
  (15 <= length prices)%nat ->
  rsi_loop prices (Py.range2 1 (14 + 1)) [] []
  = Ok (rev (map (fun d => Py.fmax d 0) (differences (recent 15 prices))),
        rev (map (fun d => Py.fabs (Py.fmin d 0)) (differences (recent 15 prices)))).
Proof.
  intros Hlen.
  assert (length (recent 15 prices) = 15%nat) as Hw by (rewrite recent_length; lia).
  rewrite (recent_split 15 prices) at 1.
  rewrite rsi_loop_suffix; [apply rsi_loop_window, Hw|].
  rewrite Hw. cbv [Py.range2]. cbn.
  repeat (constructor; [lia|]). constructor.
Qed.

Lemma fold_left_qplus (l : list Q) (a : Q) :
  (fold_left Qplus l a == a + total l)%Q.
Proof.
  revert a. induction l as [|x l IH]; intros a; cbn [fold_left].
  - unfold total. cbn. ring.
  - rewrite IH. unfold total. cbn [foldr]. ring.
Qed.

Lemma fsum_total (l : list Q) : (Py.fsum l == total l)%Q.
Proof. unfold Py.fsum. rewrite fold_left_qplus. ring. Qed.

Lemma total_app (l1 l2 : list Q) : (total (l1 ++ l2) == total l1 + total l2)%Q.
Proof.
  induction l1 as [|x l1 IH]; cbn [app].
  - unfold total at 2. cbn. ring.
  - unfold total in *. cbn [foldr]. rewrite IH. ring.
Qed.

Lemma total_rev (l : list Q) : (total (rev l) == total l)%Q.
Proof.
  induction l as [|x l IH]; [reflexivity|].
  cbn [rev]. rewrite total_app, IH. unfold total. cbn [foldr]. ring.
Qed.

Lemma total_map_ext (f g : Q -> Q) (l : list Q) :
  (forall d, f d == g d)%Q -> (total (map f l) == total (map g l))%Q.
Proof.
  intros Hfg. induction l as [|x l IH]; [reflexivity|].
  cbn [map]. unfold total in *. cbn [foldr]. rewrite IH, (Hfg x). reflexivity.
Qed.

Lemma total_map_nonneg (f : Q -> Q) (l : list Q) :
  (forall d, 0 <= f d)%Q -> (0 <= total (map f l))%Q.
Proof.
  intros Hf. induction l as [|x l IH]; [apply Qle_refl|].
  cbn [map]. unfold total in *. cbn [foldr].
  apply (Qplus_le_compat 0 (f x) 0); [apply Hf|exact IH].
Qed.

Lemma qle_bool_false (x y : Q) : Qle_bool x y = false -> (y < x)%Q.
Proof.
  intros H. apply Qnot_le_lt. intros Hle.
  apply Qle_bool_iff in Hle. congruence.
Qed.

Lemma fmax_gain (d : Q) : (Py.fmax d 0 == gain d)%Q.
Proof.
  unfold Py.fmax, gain.
  destruct (Qle_bool 0 d) eqn:Hb; destruct (Qlt_le_dec 0 d) as [Hlt|Hle];
    try reflexivity.
  - apply Qle_bool_iff in Hb. apply Qle_antisym; assumption.
  - apply qle_bool_false in Hb. exfalso. apply (Qlt_irrefl 0).
    apply Qlt_trans with (y := d); assumption.
Qed.

Lemma fabs_fmin_loss (d : Q) : (Py.fabs (Py.fmin d 0) == loss d)%Q.
Proof.
  unfold Py.fabs, Py.fmin, loss.
  destruct (Qle_bool d 0) eqn:Hb.
  - apply Qle_bool_iff in Hb.
    destruct (Qle_bool 0 d) eqn:Hb'; destruct (Qlt_le_dec d 0) as [Hlt|Hle];
      try reflexivity.
    + apply Qle_bool_iff in Hb'. exfalso. apply (Qlt_irrefl d).
      apply Qlt_le_trans with (y := 0%Q); assumption.
    + apply Qle_antisym; assumption.
    + apply qle_bool_false in Hb'. exfalso. apply (Qlt_irrefl d).
      apply Qlt_le_trans with (y := 0%Q); assumption.
  - apply qle_bool_false in Hb. change (Qle_bool 0 0) with true. cbv iota.
    destruct (Qlt_le_dec d 0) as [Hlt|Hle]; [|reflexivity].
    exfalso. apply (Qlt_irrefl 0). apply Qlt_trans with (y := d); assumption.
Qed.

Lemma gain_nonneg (d : Q) : (0 <= gain d)%Q.
Proof.
  unfold gain. destruct (Qlt_le_dec 0 d); [apply Qlt_le_weak; assumption|apply Qle_refl].
Qed.

Lemma loss_nonneg (d : Q) : (0 <= loss d)%Q.
Proof.
  unfold loss. destruct (Qlt_le_dec d 0) as [Hlt|Hle]; [|apply Qle_refl].
  apply (Qopp_le_compat d 0), Qlt_le_weak, Hlt.
Qed.

Lemma average_nonneg (f : Q -> Q) (l : list Q) (n : Z) :
  0 < n -> (forall d, 0 <= f d)%Q -> (0 <= average (map f l) n)%Q.
Proof.
  intros Hn Hf. unfold average.
  apply Qle_shift_div_l.
  - change 0%Q with (inject_Z 0). rewrite <- Zlt_Qlt. exact Hn.
  - rewrite Qmult_0_l. apply total_map_nonneg, Hf.
Qed.

(** The quotient of line 110 stays between 0 and 100. *)
Lemma rsi_range (g l : Q) :
  (0 <= g)%Q -> (0 < l)%Q ->
  ~ (1 + g / l == 0)%Q
  /\ (0 <= 100 - 100 / (1 + g / l))%Q
  /\ (100 - 100 / (1 + g / l) <= 100)%Q.
Proof.
  intros Hg Hl.
  assert (0 <= g / l)%Q as Hrs.
  { apply Qle_shift_div_l; [exact Hl|]. rewrite Qmult_0_l. exact Hg. }
  assert (0 < 1 + g / l)%Q as Hpos.
  { apply Qlt_le_trans with (y := (1 + 0)%Q); [reflexivity|].
    apply Qplus_le_r. exact Hrs. }
  split; [|split].
  - intros Heq. rewrite Heq in Hpos. apply (Qlt_irrefl 0), Hpos.
  - apply (Qplus_le_l _ _ (100 / (1 + g / l))). ring_simplify.
    apply Qle_shift_div_r; [exact Hpos|].
    apply Qle_trans with (y := (100 * (1 + 0))%Q); [discriminate|].
    apply Qmult_le_l; [reflexivity|]. apply Qplus_le_r. exact Hrs.
  - apply (Qplus_le_l _ _ (100 / (1 + g / l) - 100)). ring_simplify.
    apply Qle_shift_div_l; [exact Hpos|]. rewrite Qmult_0_l. discriminate.
Qed.

Lemma fdiv_ok (x y : Q) : ~ (y == 0)%Q -> fdiv x y = Ok (x / y)%Q.
Proof.
  intros Hy. unfold fdiv. destruct (Qeq_bool y 0) eqn:Hb; [|reflexivity].
  apply Qeq_bool_iff in Hb. contradiction.
Qed.

(** Lines 107-110 of [calc_rsi], given the two sums. *)
Lemma rsi_quotient (sg sl tg tl : Q) :
  (sg == tg)%Q -> (sl == tl)%Q -> (0 <= tg)%Q -> (0 <= tl)%Q ->
  let reference :=
    (100 - 100 / (1 + tg / inject_Z 14
                      / (if Qeq_dec (tl / inject_Z 14) 0 then 1 # 10000
                         else tl / inject_Z 14)))%Q in
  (avg_gain ← fdiv sg (inject_Z 14);
   avg_loss0 ← fdiv sl (inject_Z 14);
   let avg_loss := if Py.ftruthy avg_loss0 then avg_loss0 else (1 # 10000)%Q in
   rs ← fdiv avg_gain avg_loss;
   q ← fdiv 100 (1 + rs)%Q;
   Ok (Some (Py.round (100 - q)%Q 2)))
  = Ok (Some (Py.round reference 2))
  /\ (0 <= reference)%Q /\ (reference <= 100)%Q.
Proof.
  intros Hg Hl Hgn Hln reference.
  assert (0 < inject_Z 14)%Q as H14 by reflexivity.
  assert (0 <= tg / inject_Z 14)%Q as Hag.
  { apply Qle_shift_div_l; [exact H14|]. rewrite Qmult_0_l. exact Hgn. }
  assert (0 <= tl / inject_Z 14)%Q as Hal.
  { apply Qle_shift_div_l; [exact H14|]. rewrite Qmult_0_l. exact Hln. }
  assert (sl / inject_Z 14 == tl / inject_Z 14)%Q as Hl14
    by (apply Qdiv_comp; [exact Hl|reflexivity]).
  assert (sg / inject_Z 14 == tg / inject_Z 14)%Q as Hg14
    by (apply Qdiv_comp; [exact Hg|reflexivity]).
  set (lsrc := if Py.ftruthy (sl / inject_Z 14) then (sl / inject_Z 14)%Q else (1 # 10000)%Q).
  set (lref := if Qeq_dec (tl / inject_Z 14) 0 then (1 # 10000)%Q else (tl / inject_Z 14)%Q).
  assert ((lsrc == lref)%Q /\ (0 < lref)%Q) as [Hll Hlpos].
  { unfold lsrc, lref, Py.ftruthy.
    destruct (Qeq_bool (sl / inject_Z 14) 0) eqn:Hb; cbn [negb];
      destruct (Qeq_dec (tl / inject_Z 14) 0) as [Hz|Hnz].
    - split; reflexivity.
    - apply Qeq_bool_iff in Hb. rewrite Hl14 in Hb. contradiction.
    - apply Qeq_bool_neq in Hb. rewrite Hl14 in Hb. contradiction.
    - split; [exact Hl14|]. apply Qle_lteq in Hal as [Hlt|Heq]; [exact Hlt|].
      symmetry in Heq. contradiction. }
  assert (reference == 100 - 100 / (1 + sg / inject_Z 14 / lsrc))%Q as Href.
  { unfold reference. fold lref. rewrite Hg14, Hll. reflexivity. }
  destruct (rsi_range (tg / inject_Z 14) lref Hag Hlpos) as (Hnz & Hlo & Hhi).
  split; [|split; [exact Hlo|exact Hhi]].
  rewrite (fdiv_ok sg (inject_Z 14)) by discriminate. cbn [mbind res_bind].
  rewrite (fdiv_ok sl (inject_Z 14)) by discriminate. cbn [mbind res_bind].
  fold lsrc.
  rewrite (fdiv_ok (sg / inject_Z 14) lsrc).
  2:{ rewrite Hll. intros Heq. rewrite Heq in Hlpos. apply (Qlt_irrefl 0), Hlpos. }
  cbn [mbind res_bind].
  rewrite (fdiv_ok 100 (1 + sg / inject_Z 14 / lsrc)).
  2:{ rewrite Hg14, Hll. exact Hnz. }
  cbn [mbind res_bind].
  rewrite (round_proper _ _ 2 Href). reflexivity.
Qed.

Lemma rsi_reference_sums (prices : list Q) :
  let ds := differences (recent 15 prices) in
  (Py.fsum (rev (map (fun d => Py.fmax d 0) ds)) == total (map gain ds))%Q
  /\ (Py.fsum (rev (map (fun d => Py.fabs (Py.fmin d 0)) ds)) == total (map loss ds))%Q.
Proof.
  intros ds. split.
  - rewrite fsum_total, total_rev. apply total_map_ext, fmax_gain.
  - rewrite fsum_total, total_rev. apply total_map_ext, fabs_fmin_loss.
Qed.

Lemma calc_rsi_some (prices : list Q) :
  (15 <= length prices)%nat ->
  calc_rsi prices 14 = Ok (Some (Py.round (rsi_reference prices) 2))
  /\ (0 <= rsi_reference prices)%Q /\ (rsi_reference prices <= 100)%Q.
Proof.
  intros Hlen. unfold calc_rsi.
  destruct (Z.ltb_spec (Z.of_nat (length prices)) (14 + 1)) as [Hlt|_]; [lia|].
  rewrite (rsi_loop_recent prices Hlen). cbn [mbind res_bind fst snd].
  destruct (rsi_reference_sums prices) as [Hg Hl].
  exact (rsi_quotient _ _ _ _ Hg Hl
           (total_map_nonneg gain _ gain_nonneg)
           (total_map_nonneg loss _ loss_nonneg)).
Qed.


(** ** Evaluators *)

Lemma tracked_lookup (b : buffers) (s : string) :
  tracked b = true -> s ∈ symbols ->
  is_Some (tick_data b !! s) /\ is_Some (price_history b !! s).
Proof.
  unfold tracked. rewrite forallb_forall. intros Hall Hs.
  apply list_elem_of_In, Hall, andb_prop in Hs as [H1 H2].
  split; eapply bool_decide_eq_true_1; eassumption.
Qed.

Lemma digit_stats_total (b : buffers) (s : string) :
  is_Some (tick_data b !! s) -> exists r, digit_stats b s = Ok r.
Proof.
  intros [ticks Ht]. unfold digit_stats. rewrite Ht.
  destruct (Py.deque_len ticks <? 60); eexists; reflexivity.
Qed.

Lemma freq_head (b : buffers) (symbol : string) (s : stats) :
  digit_stats b symbol = Ok (Some s) ->
  exists top, Py.index (freq s) 0 = Ok top.
Proof.
  intros (ticks & _ & _ & Hf)%digit_stats_inv.
  destruct (freq s) as [|top rest] eqn:Hfreq.
  - pose proof (sorted_desc_perm (at_ (digit_counts (Py.items ticks))) (Py.range 10)) as Hp.
    rewrite <- Hf in Hp. apply Permutation_nil in Hp. discriminate.
  - exists top. apply py_index_zero.
Qed.

Lemma calc_rsi_total (prices : list Q) : exists r, calc_rsi prices 14 = Ok r.
Proof.
  destruct (Nat.lt_ge_cases (length prices) 15) as [Hlt|Hge].
  - exists None. unfold calc_rsi.
    destruct (Z.ltb_spec (Z.of_nat (length prices)) (14 + 1)); [reflexivity|lia].
  - destruct (calc_rsi_some prices Hge) as [Hsome _]. eexists. exact Hsome.
Qed.

Lemma calc_macd_total (prices : list Q) : exists r, calc_macd prices = Ok r.
Proof.
  unfold calc_macd.
  destruct (Z.ltb_spec (Z.of_nat (length prices)) 35) as [Hlt|Hge];
    [eexists; reflexivity|].
  change (-26) with (- Z.of_nat 26). change (-9) with (- Z.of_nat 9).
  rewrite !slice_from_negative by lia.
  rewrite !ema_window by (first [reflexivity | apply recent_nonempty; lia]).
  eexists; reflexivity.
Qed.

Lemma signal_v1_total (b : buffers) (s n : string) :
  is_Some (tick_data b !! s) -> exists v, signal_v1 b s n = Ok v.
Proof.
  intros Hs. unfold signal_v1.
  destruct (digit_stats_total b s Hs) as [[st|] Hst]; rewrite Hst; cbn [mbind res_bind];
    [|eexists; reflexivity].
  destruct (Qle_bool 60 (under6 st)); [|eexists; reflexivity].
  destruct (freq_head b s st Hst) as [top ->]. eexists; reflexivity.
Qed.

Lemma signal_v2_total (b : buffers) (s n : string) :
  is_Some (tick_data b !! s) -> exists v, signal_v2 b s n = Ok v.
Proof.
  intros Hs. unfold signal_v2.
  destruct (digit_stats_total b s Hs) as [[st|] Hst]; rewrite Hst; cbn [mbind res_bind];
    [|eexists; reflexivity].
  destruct (Qle_bool 60 (under7 st)); [|eexists; reflexivity].
  destruct (freq_head b s st Hst) as [top ->]. eexists; reflexivity.
Qed.

Lemma signal_v4_total (b : buffers) (s n : string) :
  is_Some (price_history b !! s) -> exists v, signal_v4 b s n = Ok v.
Proof.
  intros [d Hd]. unfold signal_v4. rewrite Hd.
  destruct (calc_rsi_total (map value (Py.items d))) as [r ->].
  destruct (calc_macd_total (map value (Py.items d))) as [m ->].
  cbn [mbind res_bind].
  destruct r as [r|], m as [m|]; try (eexists; reflexivity).
  destruct (Py.ftruthy r && Py.ftruthy m && flt 60 r && flt 0 m); eexists; reflexivity.
Qed.

Lemma signal_v5_total (b : buffers) (s n : string) :
  is_Some (tick_data b !! s) -> exists v, signal_v5 b s n = Ok v.
Proof.
  intros Hs. unfold signal_v5.
  destruct (digit_stats_total b s Hs) as [[st|] Hst]; rewrite Hst; cbn [mbind res_bind];
    [|eexists; reflexivity].
  destruct (Qle_bool 60 (even st)); eexists; reflexivity.
Qed.

Lemma evaluators_total (b : buffers) (id : string) (fn : evaluator) (s n : string) :
  tracked b = true ->
  dict_get EVALUATORS id = Ok fn ->
  (s, n) ∈ MARKETS ->
  exists v, fn b s n = Ok v.
Proof.
  intros Hb Hfn Hm.
  assert (s ∈ symbols) as Hs.
  { unfold symbols. apply list_elem_of_fmap. exists (s, n). split; [reflexivity|exact Hm]. }
  destruct (tracked_lookup b s Hb Hs) as [Ht Hp].
  cbn in Hfn.
  repeat match type of Hfn with
         | (if ?c then _ else _) = _ => destruct c
         end; try discriminate; injection Hfn as <-.
  - apply signal_v1_total, Ht.
  - apply signal_v2_total, Ht.
  - apply signal_v4_total, Hp.
  - apply signal_v5_total, Ht.
Qed.

(** ** Scheduler *)

Lemma first_signal_spec (id : string) (fn : string -> string -> res verdict)
    (markets : list (string * string)) (log : list call) :
  (forall s n, (s, n) ∈ markets -> exists v, fn s n = Ok v) ->
  (exists pre s n post data market,
     markets = pre ++ (s, n) :: post
     /\ Forall (fun m => fn (fst m) (snd m) = Ok None) pre
     /\ fn s n = Ok (Some (data, market))
     /\ first_signal id fn markets log
        = (log ++ map (fun m => (id, fst m)) pre ++ [(id, s); (id, s)],
           Ok (Some (data, market))))
  \/ (Forall (fun m => fn (fst m) (snd m) = Ok None) markets
      /\ first_signal id fn markets log
         = (log ++ map (fun m => (id, fst m)) markets, Ok None)).
Proof.
  revert log. induction markets as [|[s n] rest IH]; intros log Htotal.
  - right. split; [constructor|]. cbn. rewrite app_nil_r. reflexivity.
  - destruct (Htotal s n) as [v Hv]; [apply list_elem_of_here|].
    cbn [first_signal]. rewrite Hv.
    destruct v as [[data market]|]; cbn [truthy].
    + left. exists [], s, n, rest, data, market.
      split; [reflexivity|]. split; [constructor|]. split; [exact Hv|].
      cbn [map app]. rewrite <- app_assoc. reflexivity.
    + destruct (IH (log ++ [(id, s)])) as
        [(pre & s' & n' & post & data & market & -> & Hpre & Hfire & Heq)|[Hall Heq]].
      { intros s' n' Hin. apply Htotal, list_elem_of_further, Hin. }
      * left. exists ((s, n) :: pre), s', n', post, data, market.
        split; [reflexivity|]. split; [constructor; assumption|]. split; [exact Hfire|].
        rewrite Heq. cbn [map app fst]. rewrite <- app_assoc. reflexivity.
      * right. split; [constructor; assumption|].
        rewrite Heq. cbn [map app fst]. rewrite <- app_assoc. reflexivity.
Qed.

Lemma bot_index_cases (i : Z) :
  0 <= i < 4 ->
  exists cur nxt fn,
    Py.index BOT_SEQUENCE i = Ok cur
    /\ Py.index BOT_SEQUENCE ((i + 1) mod 4) = Ok nxt
    /\ dict_get EVALUATORS cur = Ok fn
    /\ BOT_SEQUENCE !! Z.to_nat i = Some cur.
Proof.
  intros Hi.
  assert (i = 0 \/ i = 1 \/ i = 2 \/ i = 3) as [-> | [-> | [-> | ->]]] by lia.
  - exists "V1", "V2", signal_v1. repeat split.
  - exists "V2", "V4", signal_v2. repeat split.
  - exists "V4", "V5", signal_v4. repeat split.
  - exists "V5", "V1", signal_v5. repeat split.
Qed.

Lemma cycle_unfold (b : buffers) (i : Z) (cur nxt : string) (fn : evaluator) :
  Py.index BOT_SEQUENCE i = Ok cur ->
  Py.index BOT_SEQUENCE ((i + 1) mod 4) = Ok nxt ->
  dict_get EVALUATORS cur = Ok fn ->
  cycle b i
  = (let '(calls, r) := first_signal cur (fn b) MARKETS [] in
     result ← r;
     match result with
     | None =>
         Ok ([Cleanup; PreAlert cur; Sleep 120]
             ++ [Evaluate calls; Publish NO_SIGNAL cur nxt None;
                 NoSignalNote cur; Sleep 600], (i + 1) mod 4)
     | Some (data, market) =>
         Ok ([Cleanup; PreAlert cur; Sleep 120]
             ++ [Evaluate calls; Publish ACTIVE cur nxt (Some market);
                 SignalNote cur data market; Sleep 300;
                 Publish EXPIRED cur nxt (Some market);
                 ExpiredNote; Sleep 300], (i + 1) mod 4)
     end).
Proof.
  intros Hcur Hnxt Hfn. unfold cycle.
  change (Z.of_nat (length BOT_SEQUENCE)) with 4.
  rewrite Hcur. cbn [mbind res_bind]. rewrite Hnxt. cbn [mbind res_bind].
  rewrite Hfn. reflexivity.
Qed.

(** A pass over tracked buffers ends normally, announces the evaluator at
    [bot_index] and moves the index one position on, whichever branch it
    takes. *)
Lemma cycle_advances (b : buffers) (i : Z) :
  tracked b = true -> 0 <= i < 4 ->
  exists evs, cycle b i = Ok (evs, (i + 1) mod 4)
    /\ active_of evs = BOT_SEQUENCE !! Z.to_nat i.
Proof.
  intros Hb Hi.
  destruct (bot_index_cases i Hi) as (cur & nxt & fn & Hcur & Hnxt & Hfn & Hseq).
  rewrite (cycle_unfold b i cur nxt fn Hcur Hnxt Hfn), Hseq.
  destruct (first_signal_spec cur (fn b) MARKETS [])
    as [(pre & s & n & post & data & market & _ & _ & _ & ->)|[_ ->]].
  { intros s n Hin. exact (evaluators_total b cur fn s n Hb Hfn Hin). }
  - eexists. split; reflexivity.
  - eexists. split; reflexivity.
Qed.

Lemma run_round_robin (snaps : list buffers) (i : Z) :
  forallb tracked snaps = true -> 0 <= i < 4 ->
  exists passes,
    run snaps i = Ok (passes, (i + Z.of_nat (length snaps)) mod 4)
    /\ length passes = length snaps
    /\ forall (j : nat) evs, passes !! j = Some evs ->
         active_of evs = BOT_SEQUENCE !! Z.to_nat ((i + Z.of_nat j) mod 4).
Proof.
  revert i. induction snaps as [|b snaps IH]; intros i Hall Hi.
  - exists []. cbn [run length]. split; [|split; [reflexivity|]].
    + rewrite Z.add_0_r, Z.mod_small by lia. reflexivity.
    + intros j evs Hj. rewrite lookup_nil in Hj. discriminate.
  - cbn [forallb] in Hall. apply andb_prop in Hall as [Hb Hall].
    destruct (cycle_advances b i Hb Hi) as (evs & Hcycle & Hact).
    destruct (IH ((i + 1) mod 4) Hall) as (passes & Hrun & Hlen & Hpasses).
    { apply Z.mod_pos_bound. lia. }
    exists (evs :: passes). cbn [run]. rewrite Hcycle. cbn [mbind res_bind snd fst].
    rewrite Hrun. cbn [mbind res_bind snd fst length].
    split; [|split; [rewrite Hlen; reflexivity|]].
    + do 2 f_equal. rewrite Zplus_mod_idemp_l. f_equal. lia.
    + intros [|j] evs' Hj.
      * cbn in Hj. injection Hj as <-. rewrite Hact.
        rewrite Z.add_0_r, Z.mod_small by lia. reflexivity.
      * cbn in Hj. rewrite (Hpasses j evs' Hj).
        rewrite Zplus_mod_idemp_l. do 3 f_equal. lia.
Qed.

(** C1.  Started with [bot_index = 0], the loop ends every pass normally,
    whatever the buffers hold when the evaluator runs; pass number j (from
    0) announces the evaluator at position j mod 4 of V1, V2, V4, V5, and
    after n passes the index is n mod 4.  A single pass moves the index from
    i to (i + 1) mod 4 in both of its branches. *)
Theorem scheduler_round_robin (snaps : list buffers) :
  forallb tracked snaps = true ->
  (exists passes,
     run snaps 0 = Ok (passes, Z.of_nat (length snaps) mod 4)
     /\ length passes = length snaps
     /\ forall (j : nat) evs, passes !! j = Some evs ->
          active_of evs = BOT_SEQUENCE !! (j mod 4)%nat)
  /\ (forall b i, b ∈ snaps -> 0 <= i < 4 ->
        exists evs, cycle b i = Ok (evs, (i + 1) mod 4)
          /\ active_of evs = BOT_SEQUENCE !! Z.to_nat i).
Proof.
  intros Hall. split.
  - destruct (run_round_robin snaps 0 Hall) as (passes & Hrun & Hlen & Hpasses); [lia|].
    exists passes. rewrite Z.add_0_l in Hrun.
    split; [exact Hrun|]. split; [exact Hlen|].
    intros j evs Hj. rewrite (Hpasses j evs Hj). f_equal.
    rewrite Z.add_0_l. change 4 with (Z.of_nat 4).
    rewrite <- Nat2Z.inj_mod. apply Nat2Z.id.
  - intros b i Hb Hi. apply cycle_advances; [|exact Hi].
    rewrite forallb_forall in Hall. apply Hall, list_elem_of_In, Hb.
Qed.

Lemma symbols_nodup : NoDup symbols.
Proof. apply (bool_decide_eq_true_1 (NoDup symbols)). reflexivity. Qed.

Lemma later_markets_not_called (id : string) (pre post : list (string * string))
    (s n : string) :
  MARKETS = pre ++ (s, n) :: post ->
  Forall (fun m => fst m ∉ map snd (map (fun m => (id, fst m)) pre ++ [(id, s); (id, s)]))
         post.
Proof.
  intros Hm. pose proof symbols_nodup as Hnd. unfold symbols in Hnd.
  rewrite Hm, map_app in Hnd. cbn [map fst] in Hnd.
  apply NoDup_app in Hnd as (_ & Hdisj & Hnd).
  apply NoDup_cons in Hnd as [Hs _].
  rewrite Forall_forall. intros m Hin Hcalled.
  assert (fst m ∈ map fst post) as Hpost.
  { apply list_elem_of_fmap. exists m. split; [reflexivity|exact Hin]. }
  rewrite map_app, map_map in Hcalled. cbn [map snd] in Hcalled.
  apply elem_of_app in Hcalled as [Hpre|Hlast].
  - apply (Hdisj (fst m)); [exact Hpre|]. apply list_elem_of_further, Hpost.
  - apply elem_of_cons in Hlast as [Heq|Hlast];
      [|apply elem_of_cons in Hlast as [Heq|Hlast]; [|inversion Hlast]];
      rewrite Heq in Hpost; contradiction.
Qed.

(** C6.  A pass calls only the evaluator the scheduler selected for it.  The
    evaluator is applied to the instruments in the order of [MARKETS]; if it
    fires for some instrument, the signal of the pass is the one it returns
    for the first such instrument, the calls stop there (the generator calls
    it twice for that instrument) and no later instrument is called; if it
    fires for none, every instrument is called once and the pass has no
    signal. *)
Theorem cycle_runs_selected_evaluator_first_match (b : buffers) (bot_index : Z) :
  tracked b = true -> 0 <= bot_index < 4 ->
  exists current_bot fn evs next calls,
    BOT_SEQUENCE !! Z.to_nat bot_index = Some current_bot
    /\ dict_get EVALUATORS current_bot = Ok fn
    /\ cycle b bot_index = Ok (evs, next)
    /\ evaluations evs = [calls]
    /\ Forall (fun c => fst c = current_bot) calls
    /\ ((exists pre s n post data market,
           MARKETS = pre ++ (s, n) :: post
           /\ Forall (fun m => fn b (fst m) (snd m) = Ok None) pre
           /\ fn b s n = Ok (Some (data, market))
           /\ map snd calls = map fst pre ++ [s; s]
           /\ Forall (fun m => fst m ∉ map snd calls) post
           /\ SignalNote current_bot data market ∈ evs)
        \/ (Forall (fun m => fn b (fst m) (snd m) = Ok None) MARKETS
            /\ map snd calls = map fst MARKETS
            /\ NoSignalNote current_bot ∈ evs)).
Proof.
  intros Hb Hi.
  destruct (bot_index_cases bot_index Hi) as (cur & nxt & fn & Hcur & Hnxt & Hfn & Hseq).
  exists cur, fn.
  rewrite (cycle_unfold b bot_index cur nxt fn Hcur Hnxt Hfn).
  destruct (first_signal_spec cur (fn b) MARKETS [])
    as [(pre & s & n & post & data & market & Hm & Hpre & Hfire & ->)|[Hnone ->]].
  { intros s n Hin. exact (evaluators_total b cur fn s n Hb Hfn Hin). }
  - cbn [mbind res_bind app].
    eexists _, _, _. split; [exact Hseq|]. split; [exact Hfn|]. split; [reflexivity|].
    split; [|split; [|left]].
    + reflexivity.
    + apply Forall_app. split.
      * apply Forall_forall. intros c (m & -> & _)%list_elem_of_fmap. reflexivity.
      * repeat constructor.
    + exists pre, s, n, post, data, market.
      split; [exact Hm|]. split; [exact Hpre|]. split; [exact Hfire|].
      split; [rewrite map_app, map_map; reflexivity|].
      split; [exact (later_markets_not_called cur pre post s n Hm)|].
      do 5 apply list_elem_of_further. apply list_elem_of_here.
  - cbn [mbind res_bind app].
    eexists _, _, _. split; [exact Hseq|]. split; [exact Hfn|]. split; [reflexivity|].
    split; [|split; [|right]].
    + reflexivity.
    + apply Forall_forall. intros c (m & -> & _)%list_elem_of_fmap. reflexivity.
    + split; [exact Hnone|]. split; [reflexivity|].
      do 5 apply list_elem_of_further. apply list_elem_of_here.
Qed.

(** ** Instances on sample data *)

Lemma scheduler_round_robin_witness :
  forallb tracked [initial_buffers; sample_buffers; initial_buffers;
                   sample_buffers; initial_buffers] = true
  /\ exists passes,
       run [initial_buffers; sample_buffers; initial_buffers;
            sample_buffers; initial_buffers] 0 = Ok (passes, 1)
       /\ length passes = 5%nat.
Proof.
  split; [vm_compute; reflexivity|].
  destruct (scheduler_round_robin
              [initial_buffers; sample_buffers; initial_buffers;
               sample_buffers; initial_buffers])
    as [(passes & Hrun & Hlen & _) _]; [vm_compute; reflexivity|].
  exists passes. split; [exact Hrun|exact Hlen].
Defined.

Lemma digit_stats_threshold_and_shares_witness :
  tick_data sample_buffers !! "R_10" = Some (Py.Deque 120 sample_digits)
  /\ exists s, digit_stats sample_buffers "R_10" = Ok (Some s)
       /\ under6 s = share [0; 1; 2; 3; 4; 5] sample_digits
       /\ even s = share [0; 2; 4; 6; 8] sample_digits.
Proof.
  split; [vm_compute; reflexivity|].
  destruct (digit_stats_threshold_and_shares sample_buffers "R_10"
              (Py.Deque 120 sample_digits)) as [_ Hsome]; [vm_compute; reflexivity|].
  destruct Hsome as (s & Hs & H6 & _ & Heven & _); [vm_compute; lia|].
  exists s. split; [exact Hs|]. split; [exact H6|exact Heven].
Defined.

Lemma digit_stats_top_is_smallest_most_frequent_witness :
  digit_stats sample_buffers "R_10" = Ok (Some sample_stats)
  /\ exists ticks top rest,
       tick_data sample_buffers !! "R_10" = Some ticks
       /\ freq sample_stats = top :: rest
       /\ is_digit top.
Proof.
  split; [vm_compute; reflexivity|].
  destruct (digit_stats_top_is_smallest_most_frequent sample_buffers "R_10" sample_stats)
    as (ticks & top & rest & Ht & Hf & Hd & _); [vm_compute; reflexivity|].
  exists ticks, top, rest. split; [exact Ht|]. split; [exact Hf|exact Hd].
Defined.

Lemma cycle_runs_selected_evaluator_first_match_witness :
  tracked sample_buffers = true
  /\ exists current_bot fn evs next calls,
       BOT_SEQUENCE !! 0%nat = Some current_bot
       /\ dict_get EVALUATORS current_bot = Ok fn
       /\ cycle sample_buffers 0 = Ok (evs, next)
       /\ evaluations evs = [calls]
       /\ Forall (fun c => fst c = current_bot) calls.
Proof.
  split; [vm_compute; reflexivity|].
  destruct (cycle_runs_selected_evaluator_first_match sample_buffers 0)
    as (cur & fn & evs & next & calls & H1 & H2 & H3 & H4 & H5 & _);
    [vm_compute; reflexivity|lia|].
  exists cur, fn, evs, next, calls. repeat split; assumption.
Defined.

Lemma stats_under6_le_under7_even_odd_100_witness :
  tick_data (collect_ticks no_float_of_str initial_buffers sample_messages) !! "R_10"
  = Some (Py.Deque 120 sample_digits)
  /\ exists s,
       digit_stats (collect_ticks no_float_of_str initial_buffers sample_messages) "R_10"
       = Ok (Some s)
       /\ (under6 s <= under7 s)%Q
       /\ (even s + odd s == 100)%Q.
Proof.
  split; [vm_compute; reflexivity|].
  apply (stats_under6_le_under7_even_odd_100 no_float_of_str sample_messages "R_10"
           (Py.Deque 120 sample_digits)); [vm_compute; reflexivity|vm_compute; lia].
Defined.

Lemma buffers_bounded_fifo_witness :
  "R_10" ∈ symbols
  /\ exists dq pq,
       tick_data (collect_ticks no_float_of_str initial_buffers sample_messages) !! "R_10"
       = Some dq
       /\ price_history (collect_ticks no_float_of_str initial_buffers sample_messages)
          !! "R_10" = Some pq
       /\ (length (Py.items dq) <= 120)%nat
       /\ (length (Py.items pq) <= 120)%nat.
Proof.
  assert ("R_10" ∈ symbols) as Hin by apply list_elem_of_here.
  split; [exact Hin|].
  destruct (buffers_bounded_fifo no_float_of_str sample_messages "R_10" Hin)
    as [(dq & pq & Hd & Hp & Hld & Hlp & _) _].
  exists dq, pq. repeat split; assumption.
Defined.

Lemma non_tick_message_leaves_buffers_witness :
  tick_shaped (Parsed (JObj [("msg_type", JStr "ping")])) = false
  /\ fst (on_message no_float_of_str sample_buffers
            (Parsed (JObj [("msg_type", JStr "ping")]))) = sample_buffers.
Proof.
  split; [reflexivity|].
  apply (non_tick_message_leaves_buffers no_float_of_str sample_buffers
           (Parsed (JObj [("msg_type", JStr "ping")]))).
  reflexivity.
Defined.

(** C9 as the specification words it does not hold: a tick object without
    a quote is not of the tick shape, and processing it raises [KeyError]. *)
Lemma tick_without_quote_raises :
  ~ (forall (float_of_str : string -> option pyfloat) (b : buffers) (msg : message),
       tick_shaped msg = false ->
       on_message float_of_str b msg = (b, Ok ())).
Proof.
  intros H.
  specialize (H no_float_of_str initial_buffers
                (Parsed (JObj [("tick", JObj [("symbol", JStr "R_10")])])) eq_refl).
  apply (f_equal snd) in H. vm_compute in H. discriminate.
Qed.

Lemma last_digit_of_rendering_witness :
  repr (PyFloat (1234567 # 1000) "1234.567")
  = render (Positional false [1; 2; 3; 4] [5; 6; 7])
  /\ last_digit (PyFloat (1234567 # 1000) "1234.567") = Ok 7.
Proof.
  split; [reflexivity|].
  apply (last_digit_of_rendering (PyFloat (1234567 # 1000) "1234.567")
           (Positional false [1; 2; 3; 4] [5; 6; 7])); [reflexivity|].
  unfold well_formed, is_digit.
  repeat split; try discriminate; repeat constructor; lia.
Defined.

(** ** Worked values *)

Example sample_shares :
  (under6 sample_stats == 100)%Q /\ (under7 sample_stats == 100)%Q
  /\ (even sample_stats == 50)%Q /\ (odd sample_stats == 50)%Q
  /\ freq sample_stats = [0; 1; 2; 3; 4; 5; 6; 7; 8; 9].
Proof. vm_compute. repeat split. Qed.

Example last_digit_integral : last_digit (PyFloat 100 "100.0") = Ok 0.
Proof. reflexivity. Qed.

Example last_digit_scientific : last_digit (PyFloat (15 # 100000000) "1.5e-07") = Ok 7.
Proof. reflexivity. Qed.

Example last_digit_infinite : last_digit (PyFloat 0 "inf") = Raise ValueError.
Proof. reflexivity. Qed.

Example rsi_rising : calc_rsi sample_prices 14 = Ok (Some (9999 # 100)%Q).
Proof. vm_compute. reflexivity. Qed.

Example macd_short : calc_macd (Py.slice_to sample_prices 34) = Ok None.
Proof. reflexivity. Qed.

Example round_ties_to_even :
  Py.round (5 # 1000) 2 = (0 # 100)%Q /\ Py.round (15 # 1000) 2 = (2 # 100)%Q.
Proof. split; reflexivity. Qed.

Example deque_evicts_oldest :
  Py.items (Py.deque_append 4 (Py.Deque 3 [1; 2; 3])) = [2; 3; 4].
Proof. reflexivity. Qed.

(** * Further properties *)

(** ** Digit statistics and the digit evaluators *)

Lemma digit_stats_shares (b : buffers) (symbol : string) (s : stats) :
  digit_stats b symbol = Ok (Some s) ->
  exists ticks,
    tick_data b !! symbol = Some ticks
    /\ (60 <= length (Py.items ticks))%nat
    /\ s = {| freq := Py.sorted_desc (at_ (digit_counts (Py.items ticks))) (Py.range 10);
              under6 := share [0; 1; 2; 3; 4; 5] (Py.items ticks);
              under7 := share [0; 1; 2; 3; 4; 5; 6] (Py.items ticks);
              even := share [0; 2; 4; 6; 8] (Py.items ticks);
              odd := share [1; 3; 5; 7; 9] (Py.items ticks) |}.
Proof.
  intros Hs. destruct (digit_stats_inv b symbol s Hs) as (ticks & Hb & Hlen & _).
  exists ticks. split; [exact Hb|]. split; [exact Hlen|].
  rewrite (digit_stats_some b symbol ticks Hb Hlen) in Hs. congruence.
Qed.

Lemma strongly_sorted_ext {A} (R R' : A -> A -> Prop) (l : list A) :
  (forall x y, x ∈ l -> y ∈ l -> R x y -> R' x y) ->
  StronglySorted R l -> StronglySorted R' l.
Proof.
  intros Hext Hs. induction Hs as [|x l Hs IH Hx]; [constructor|].
  constructor.
  - apply IH. intros y z Hy Hz. apply Hext; apply list_elem_of_further; assumption.
  - rewrite Forall_forall in Hx |- *. intros y Hy.
    apply Hext; [apply list_elem_of_here|apply list_elem_of_further, Hy|apply Hx, Hy].
Qed.

(** The ranking is a complete one: every digit 0..9 occurs in it once, a
    digit that occurs more often in the buffer comes earlier, and digits
    that occur equally often come in increasing order. *)
Theorem freq_is_full_ranking (b : buffers) (symbol : string) (s : stats) :
  digit_stats b symbol = Ok (Some s) ->
  exists ticks,
    tick_data b !! symbol = Some ticks
    /\ Permutation (freq s) [0; 1; 2; 3; 4; 5; 6; 7; 8; 9]
    /\ StronglySorted (ranked_before (Py.count (Py.items ticks))) (freq s).
Proof.
  intros (ticks & Hb & _ & Hf)%digit_stats_inv.
  exists ticks. split; [exact Hb|]. rewrite Hf.
  pose proof (sorted_desc_perm (at_ (digit_counts (Py.items ticks))) (Py.range 10)) as Hp.
  split; [exact Hp|].
  apply (strongly_sorted_ext (ranked_before (at_ (digit_counts (Py.items ticks))))).
  - intros x y Hx Hy. rewrite Hp in Hx, Hy.
    apply range10_digits in Hx, Hy. unfold ranked_before.
    rewrite !at_counts by assumption. tauto.
  - apply sorted_desc_sorted, range10_sorted.
Qed.

Lemma qualifying_bounds (digits ticks : list Z) :
  0 <= qualifying digits ticks <= Z.of_nat (length ticks).
Proof.
  induction ticks as [|y ticks IH]; [unfold qualifying; cbn; lia|].
  rewrite qualifying_cons. cbn [length].
  destruct (decide (y ∈ digits)); lia.
Qed.

Lemma share_bounds (digits ticks : list Z) :
  ticks <> [] -> (0 <= share digits ticks)%Q /\ (share digits ticks <= 100)%Q.
Proof.
  intros Hne. pose proof (qualifying_bounds digits ticks) as [Hlo Hhi].
  assert (0 < Z.of_nat (length ticks)) as Hn by (destruct ticks; [contradiction|cbn; lia]).
  assert (~ (inject_Z (Z.of_nat (length ticks)) == 0)%Q) as Hnz.
  { change 0%Q with (inject_Z 0). rewrite inject_Z_injective. lia. }
  split.
  - apply Qle_trans with (y := percent 0 (Z.of_nat (length ticks))).
    + unfold percent. apply Qle_lteq. right. field. exact Hnz.
    + apply percent_mono; assumption.
  - apply Qle_trans with (y := percent (Z.of_nat (length ticks)) (Z.of_nat (length ticks))).
    + apply percent_mono; assumption.
    + unfold percent. apply Qle_lteq. right. field. exact Hnz.
Qed.

Lemma stats_bounds (b : buffers) (symbol : string) (s : stats) :
  digit_stats b symbol = Ok (Some s) ->
  (0 <= under6 s <= 100)%Q /\ (0 <= under7 s <= 100)%Q
  /\ (0 <= even s <= 100)%Q /\ (0 <= odd s <= 100)%Q.
Proof.
  intros (ticks & _ & Hlen & ->)%digit_stats_shares. cbn [under6 under7 even odd].
  assert (Py.items ticks <> []) as Hne by (destruct (Py.items ticks); [cbn in Hlen; lia|discriminate]).
  repeat split; apply share_bounds; exact Hne.
Qed.

(** Each of the four percentages lies between 0 and 100, and under6 is at
    most under7, whatever integers the buffer holds. *)
Theorem stats_are_percentages (b : buffers) (symbol : string) (s : stats) :
  digit_stats b symbol = Ok (Some s) ->
  (0 <= under6 s <= 100)%Q /\ (0 <= under7 s <= 100)%Q
  /\ (0 <= even s <= 100)%Q /\ (0 <= odd s <= 100)%Q
  /\ (under6 s <= under7 s)%Q.
Proof.
  intros Hs. destruct (stats_bounds b symbol s Hs) as (H6 & H7 & He & Ho).
  split; [exact H6|]. split; [exact H7|]. split; [exact He|]. split; [exact Ho|].
  destruct (digit_stats_shares b symbol s Hs) as (ticks & _ & Hlen & ->).
  cbn [under6 under7]. unfold share. apply percent_mono; [|lia].
  apply qualifying_subset. intros d Hd.
  apply list_elem_of_In. apply list_elem_of_In in Hd. cbn in *. tauto.
Qed.

Lemma signal_v1_inv (b : buffers) (sym name : string) (v : signal * string) :
  signal_v1 b sym name = Ok (Some v) ->
  exists st top,
    digit_stats b sym = Ok (Some st)
    /\ Qle_bool 60 (under6 st) = true
    /\ Py.index (freq st) 0 = Ok top
    /\ v = (Signal "UNDER 6" (Some top) (Some (under6 st)) None None None, name).
Proof.
  unfold signal_v1.
  destruct (digit_stats b sym) as [[st|]|e]; cbn [mbind res_bind]; try discriminate.
  destruct (Qle_bool 60 (under6 st)) eqn:Hq; [|discriminate].
  destruct (Py.index (freq st) 0) as [top|e] eqn:Htop; cbn [mbind res_bind];
    [|discriminate].
  intros [= <-]. exists st, top.
  split; [reflexivity|]. split; [exact Hq|]. split; [exact Htop|reflexivity].
Qed.

Lemma signal_v2_inv (b : buffers) (sym name : string) (v : signal * string) :
  signal_v2 b sym name = Ok (Some v) ->
  exists st top,
    digit_stats b sym = Ok (Some st)
    /\ Qle_bool 60 (under7 st) = true
    /\ Py.index (freq st) 0 = Ok top
    /\ v = (Signal "UNDER 7" (Some top) (Some (under7 st)) None None None, name).
Proof.
  unfold signal_v2.
  destruct (digit_stats b sym) as [[st|]|e]; cbn [mbind res_bind]; try discriminate.
  destruct (Qle_bool 60 (under7 st)) eqn:Hq; [|discriminate].
  destruct (Py.index (freq st) 0) as [top|e] eqn:Htop; cbn [mbind res_bind];
    [|discriminate].
  intros [= <-]. exists st, top.
  split; [reflexivity|]. split; [exact Hq|]. split; [exact Htop|reflexivity].
Qed.

Lemma signal_v5_inv (b : buffers) (sym name : string) (v : signal * string) :
  signal_v5 b sym name = Ok (Some v) ->
  exists st,
    digit_stats b sym = Ok (Some st)
    /\ Qle_bool 60 (even st) = true
    /\ v = (Signal "EVEN" None (Some (even st)) None None None, name).
Proof.
  unfold signal_v5.
  destruct (digit_stats b sym) as [[st|]|e]; cbn [mbind res_bind]; try discriminate.
  destruct (Qle_bool 60 (even st)) eqn:Hq; [|discriminate].
  intros [= <-]. exists st.
  split; [reflexivity|]. split; [exact Hq|reflexivity].
Qed.

Lemma freq_head_digit (b : buffers) (sym : string) (st : stats) (top : Z) :
  digit_stats b sym = Ok (Some st) ->
  Py.index (freq st) 0 = Ok top ->
  is_digit top.
Proof.
  intros (ticks & _ & _ & Hf)%digit_stats_inv Htop.
  pose proof (sorted_desc_perm (at_ (digit_counts (Py.items ticks))) (Py.range 10)) as Hp.
  rewrite <- Hf in Hp.
  destruct (freq st) as [|x rest]; [rewrite py_index_empty in Htop; discriminate|].
  rewrite py_index_zero in Htop. injection Htop as ->.
  apply range10_digits. rewrite <- Hp. apply list_elem_of_here.
Qed.

(** Whenever UNDER 6 fires for an instrument, UNDER 7 fires for it as well,
    with the same entry digit and a probability that is not smaller. *)
Theorem under6_signal_implies_under7_signal
    (b : buffers) (sym name : string) (v1 : signal * string) :
  signal_v1 b sym name = Ok (Some v1) ->
  exists v2 p1 p2,
    signal_v2 b sym name = Ok (Some v2)
    /\ entry (fst v2) = entry (fst v1)
    /\ prob (fst v1) = Some p1 /\ prob (fst v2) = Some p2
    /\ (p1 <= p2)%Q.
Proof.
  intros (st & top & Hst & Hq & Htop & ->)%signal_v1_inv.
  assert (under6 st <= under7 st)%Q as Hle.
  { destruct (digit_stats_shares b sym st Hst) as (ticks & _ & Hlen & ->).
    cbn [under6 under7]. unfold share. apply percent_mono; [|lia].
    apply qualifying_subset. intros d Hd.
    apply list_elem_of_In. apply list_elem_of_In in Hd. cbn in *. tauto. }
  exists (Signal "UNDER 7" (Some top) (Some (under7 st)) None None None, name),
         (under6 st), (under7 st).
  split; [|repeat split; exact Hle].
  unfold signal_v2. rewrite Hst. cbn [mbind res_bind].
  assert (Qle_bool 60 (under7 st) = true) as ->.
  { apply Qle_bool_iff. apply Qle_bool_iff in Hq.
    apply Qle_trans with (y := under6 st); assumption. }
  rewrite Htop. reflexivity.
Qed.

(** A signal of one of the three digit evaluators names the market it was
    asked about, carries a probability between 60 and 100 and no oscillator
    value, and its entry digit, when it has one, is a digit. *)
Theorem digit_signal_shape
    (fn : evaluator) (b : buffers) (sym name : string) (sig : signal) (market : string) :
  fn ∈ digit_evaluators ->
  fn b sym name = Ok (Some (sig, market)) ->
  market = name
  /\ (exists p, prob sig = Some p /\ (60 <= p)%Q /\ (p <= 100)%Q)
  /\ rsi sig = None /\ macd sig = None /\ momentum sig = None
  /\ (forall e, entry sig = Some e -> is_digit e).
Proof.
  intros Hfn Hsig. unfold digit_evaluators in Hfn.
  apply elem_of_cons in Hfn as [->|Hfn];
    [|apply elem_of_cons in Hfn as [->|Hfn];
      [|apply elem_of_cons in Hfn as [->|Hfn]; [|inversion Hfn]]].
  - apply signal_v1_inv in Hsig as (st & top & Hst & Hq & Htop & [= -> ->]).
    destruct (stats_bounds b sym st Hst) as ((_ & Hhi) & _).
    cbn. split; [reflexivity|]. split.
    + exists (under6 st). repeat split; [apply Qle_bool_iff, Hq|exact Hhi].
    + do 3 (split; [reflexivity|]).
      intros g [= <-]. exact (freq_head_digit b sym st top Hst Htop).
  - apply signal_v2_inv in Hsig as (st & top & Hst & Hq & Htop & [= -> ->]).
    destruct (stats_bounds b sym st Hst) as (_ & (_ & Hhi) & _).
    cbn. split; [reflexivity|]. split.
    + exists (under7 st). repeat split; [apply Qle_bool_iff, Hq|exact Hhi].
    + do 3 (split; [reflexivity|]).
      intros g [= <-]. exact (freq_head_digit b sym st top Hst Htop).
  - apply signal_v5_inv in Hsig as (st & Hst & Hq & [= -> ->]).
    destruct (stats_bounds b sym st Hst) as (_ & _ & (_ & Hhi) & _).
    cbn. split; [reflexivity|]. split.
    + exists (even st). repeat split; [apply Qle_bool_iff, Hq|exact Hhi].
    + do 3 (split; [reflexivity|]). intros g [=].
Qed.

(** ** Passes of the scheduler *)

Lemma first_signal_none (id : string) (fn : string -> string -> res verdict)
    (markets : list (string * string)) (log : list call) :
  Forall (fun m => fn (fst m) (snd m) = Ok None) markets ->
  first_signal id fn markets log = (log ++ map (fun m => (id, fst m)) markets, Ok None).
Proof.
  intros Hall. revert log. induction Hall as [|[s n] rest Hm _ IH]; intros log.
  - cbn. rewrite app_nil_r. reflexivity.
  - cbn [first_signal]. cbn [fst snd] in Hm. rewrite Hm. cbn [truthy].
    rewrite IH. cbn [map fst]. rewrite <- app_assoc. reflexivity.
Qed.

(** Every pass over tracked buffers sleeps 720 seconds in all, 120 before
    the evaluation and 600 after it, in either branch: it publishes
    NO_SIGNAL and sends two notifications, or publishes ACTIVE and then
    EXPIRED and sends three. *)
Theorem pass_lasts_720_seconds (b : buffers) (bot_index : Z) :
  tracked b = true -> 0 <= bot_index < 4 ->
  exists evs next,
    cycle b bot_index = Ok (evs, next)
    /\ slept evs = 720
    /\ ((published evs = [NO_SIGNAL] /\ notes evs = 2%nat)
        \/ (published evs = [ACTIVE; EXPIRED] /\ notes evs = 3%nat)).
Proof.
  intros Hb Hi.
  destruct (bot_index_cases bot_index Hi) as (cur & nxt & fn & Hcur & Hnxt & Hfn & _).
  rewrite (cycle_unfold b bot_index cur nxt fn Hcur Hnxt Hfn).
  destruct (first_signal_spec cur (fn b) MARKETS [])
    as [(pre & s & n & post & data & market & _ & _ & _ & ->)|[_ ->]].
  { intros s n Hin. exact (evaluators_total b cur fn s n Hb Hfn Hin). }
  - eexists _, _. split; [reflexivity|]. split; [reflexivity|].
    right. split; reflexivity.
  - eexists _, _. split; [reflexivity|]. split; [reflexivity|].
    left. split; reflexivity.
Qed.

Lemma consistent_tracked (b : buffers) : consistent b -> tracked b = true.
Proof.
  intros (Hd1 & Hd2 & _). unfold tracked. apply forallb_forall. intros s Hs.
  apply list_elem_of_In in Hs.
  apply andb_true_intro. split; apply bool_decide_eq_true_2.
  - apply Hd1, Hs.
  - apply Hd2, Hs.
Qed.

Lemma omap_length_le {A B} (f : A -> option B) (l : list A) :
  (length (omap f l) <= length l)%nat.
Proof.
  induction l as [|x l IH]; cbn; [lia|].
  destruct (f x); cbn; lia.
Qed.

Lemma cold_evaluator (b : buffers) (id : string) (fn : evaluator) (s n : string) :
  tracked b = true ->
  (forall sym dq, tick_data b !! sym = Some dq -> (length (Py.items dq) < 60)%nat) ->
  (forall sym pq, price_history b !! sym = Some pq -> (length (Py.items pq) < 35)%nat) ->
  dict_get EVALUATORS id = Ok fn ->
  (s, n) ∈ MARKETS ->
  fn b s n = Ok None.
Proof.
  intros Hb Hdig Hpri Hfn Hm.
  assert (s ∈ symbols) as Hs.
  { unfold symbols. apply list_elem_of_fmap. exists (s, n). split; [reflexivity|exact Hm]. }
  destruct (tracked_lookup b s Hb Hs) as [[dq Hdq] [pq Hpq]].
  pose proof (digit_stats_none b s dq Hdq (Hdig s dq Hdq)) as Hnone.
  cbn in Hfn.
  repeat match type of Hfn with
         | (if ?c then _ else _) = _ => destruct c
         end; try discriminate; injection Hfn as <-.
  - unfold signal_v1. rewrite Hnone. reflexivity.
  - unfold signal_v2. rewrite Hnone. reflexivity.
  - unfold signal_v4. rewrite Hpq.
    destruct (calc_rsi_total (map value (Py.items pq))) as [r ->].
    assert (calc_macd (map value (Py.items pq)) = Ok None) as ->.
    { unfold calc_macd. rewrite length_map. pose proof (Hpri s pq Hpq) as Hlt.
      destruct (Z.ltb_spec (Z.of_nat (length (Py.items pq))) 35); [reflexivity|lia]. }
    cbn [mbind res_bind]. destruct r; reflexivity.
  - unfold signal_v5. rewrite Hnone. reflexivity.
Qed.

(** Until 35 messages have arrived from the stream, every pass ends in
    NO_SIGNAL: the selected evaluator is asked about each of the four
    instruments, in order, and fires for none. *)
Theorem cold_start_no_signal
    (float_of_str : string -> option pyfloat) (msgs : list message) (bot_index : Z) :
  (length msgs < 35)%nat -> 0 <= bot_index < 4 ->
  exists current_bot next_bot,
    BOT_SEQUENCE !! Z.to_nat bot_index = Some current_bot
    /\ cycle (collect_ticks float_of_str initial_buffers msgs) bot_index
       = Ok ([Cleanup; PreAlert current_bot; Sleep 120;
              Evaluate (map (fun s => (current_bot, s)) symbols);
              Publish NO_SIGNAL current_bot next_bot None;
              NoSignalNote current_bot; Sleep 600],
             (bot_index + 1) mod 4).
Proof.
  intros Hlen Hi.
  destruct (bot_index_cases bot_index Hi) as (cur & nxt & fn & Hcur & Hnxt & Hfn & Hseq).
  exists cur, nxt. split; [exact Hseq|].
  rewrite (cycle_unfold _ bot_index cur nxt fn Hcur Hnxt Hfn).
  pose proof (consistent_tracked _ (collect_ticks_consistent float_of_str msgs)) as Hb.
  rewrite first_signal_none.
  - cbn [mbind res_bind app]. unfold symbols. rewrite map_map. reflexivity.
  - apply Forall_forall. intros [s n] Hm. cbn [fst snd].
    apply (cold_evaluator _ cur fn s n Hb); [| |exact Hfn|exact Hm].
    + intros sym dq Hdq.
      rewrite (proj1 (collect_ticks_content float_of_str msgs sym) dq Hdq), recent_length.
      pose proof (omap_length_le
        (fun msg => match tick_of float_of_str msg with
                    | Some (s0, g, _) => if String.eqb s0 sym then Some g else None
                    | None => None
                    end) msgs) as Hle.
      unfold digits_for. lia.
    + intros sym pq Hpq.
      rewrite (proj2 (collect_ticks_content float_of_str msgs sym) pq Hpq), recent_length.
      pose proof (omap_length_le
        (fun msg => match tick_of float_of_str msg with
                    | Some (s0, _, p) => if String.eqb s0 sym then Some p else None
                    | None => None
                    end) msgs) as Hle.
      unfold prices_for. lia.
Qed.

(** ** The ingestor on reachable buffers *)

Section IngestorInvariants.

Variable float_of_str : string -> option pyfloat.

Lemma contributions_aligned (sym : string) (msgs : list message) :
  Forall2 (fun g p => last_digit p = Ok g)
          (digits_for float_of_str sym msgs) (prices_for float_of_str sym msgs).
Proof.
  induction msgs as [|msg msgs IH] using rev_ind; [constructor|].
  rewrite digits_for_snoc, prices_for_snoc. apply Forall2_app; [exact IH|].
  destruct (tick_of float_of_str msg) as [[[s g] p]|] eqn:Htick; [|constructor].
  destruct (String.eqb s sym); [|constructor].
  apply tick_of_inv in Htick as (_ & _ & _ & _ & _ & _ & _ & _ & _ & Hg).
  constructor; [exact Hg|constructor].
Qed.

(** The two buffers of an instrument stay aligned: they have the same
    length, and the digit at each position is [last_digit] of the price at
    that position. *)
Theorem buffers_aligned (msgs : list message) (sym : string)
    (dq : Py.deque Z) (pq : Py.deque pyfloat) :
  tick_data (collect_ticks float_of_str initial_buffers msgs) !! sym = Some dq ->
  price_history (collect_ticks float_of_str initial_buffers msgs) !! sym = Some pq ->
  length (Py.items dq) = length (Py.items pq)
  /\ Forall2 (fun g p => last_digit p = Ok g) (Py.items dq) (Py.items pq).
Proof.
  intros Hdq Hpq.
  destruct (collect_ticks_content float_of_str msgs sym) as [Hd Hp].
  rewrite (Hd dq Hdq), (Hp pq Hpq).
  pose proof (contributions_aligned sym msgs) as Hal.
  pose proof (Forall2_length _ _ _ Hal) as Hlen.
  assert (Forall2 (fun g p => last_digit p = Ok g)
            (recent 120 (digits_for float_of_str sym msgs))
            (recent 120 (prices_for float_of_str sym msgs))) as Hrec.
  { unfold recent. rewrite Hlen. apply Forall2_drop, Hal. }
  split; [exact (Forall2_length _ _ _ Hrec)|exact Hrec].
Qed.

(** A message whose processing raises leaves the buffers exactly as they
    were: no digit is appended without its price. *)
Theorem failed_message_changes_nothing
    (msgs : list message) (msg : message) (e : exn) :
  snd (on_message float_of_str (collect_ticks float_of_str initial_buffers msgs) msg)
  = Raise e ->
  collect_ticks float_of_str initial_buffers (msgs ++ [msg])
  = collect_ticks float_of_str initial_buffers msgs.
Proof.
  intros Hraise. rewrite collect_ticks_snoc.
  pose proof (collect_ticks_consistent float_of_str msgs) as Hc.
  destruct (tick_of float_of_str msg) as [[[s g] p]|] eqn:Htick.
  - destruct (on_message_tick float_of_str _ msg s g p Hc Htick)
      as (dq & pq & _ & _ & Heq).
    rewrite Heq in Hraise. discriminate.
  - apply on_message_no_tick; assumption.
Qed.

(** A tick for a symbol that is not one of the configured instruments
    raises [KeyError] and is not stored. *)
Theorem unknown_symbol_raises_key_error
    (msgs : list message) (o t : list (string * json)) (q : json) (p : pyfloat)
    (s : string) :
  assoc "tick" o = Some (JObj t) ->
  assoc "quote" t = Some q ->
  to_float float_of_str q = Ok p ->
  assoc "symbol" t = Some (JStr s) ->
  s ∉ symbols ->
  on_message float_of_str (collect_ticks float_of_str initial_buffers msgs)
             (Parsed (JObj o))
  = (collect_ticks float_of_str initial_buffers msgs, Raise KeyError).
Proof.
  intros Ht Hq Hp Hs Hnot.
  destruct (collect_ticks_consistent float_of_str msgs) as (Hdom & _).
  assert (tick_data (collect_ticks float_of_str initial_buffers msgs) !! s = None) as Hnone.
  { destruct (tick_data (collect_ticks float_of_str initial_buffers msgs) !! s) eqn:Hl;
      [|reflexivity].
    exfalso. apply Hnot, Hdom. eexists; exact Hl. }
  unfold on_message, read_tick. cbn. rewrite Ht. cbn. rewrite Hq. cbn. rewrite Hp. cbn.
  rewrite Hs. cbn. rewrite Hnone. reflexivity.
Qed.

End IngestorInvariants.

(** ** [last_digit] on arbitrary text *)

Lemma split_snoc_other (sep c : ascii) (body : string) :
  Ascii.eqb c sep = false ->
  exists init seg,
    Py.split sep body = init ++ [seg]
    /\ Py.split sep (body ++ String c "") = init ++ [(seg ++ String c "")%string].
Proof.
  intros Hc. induction body as [|x body (init & seg & Hb & Hbc)].
  - exists [], "". split; [reflexivity|].
    rewrite append_nil_l. cbn. rewrite Hc. reflexivity.
  - rewrite append_cons. cbn [Py.split]. rewrite Hb, Hbc.
    destruct (Ascii.eqb x sep).
    + exists ("" :: init), seg. split; reflexivity.
    + destruct init as [|i0 init].
      * exists [], (String x seg). split; reflexivity.
      * exists (String x i0 :: init), seg. split; reflexivity.
Qed.

(** [last_digit] looks at the final character of the text only: it is the
    value of that character when it is a digit, [ValueError] when it is any
    other character but the point, and [IndexError] when the text ends in a
    point or is empty. *)
Theorem last_digit_final_character (price : pyfloat) :
  (repr price = "" -> last_digit price = Raise IndexError)
  /\ (forall body c,
        repr price = (body ++ String c "")%string ->
        last_digit price
        = if Ascii.eqb c "." then Raise IndexError else Py.int_of_char c).
Proof.
  split.
  - intros Hr. unfold last_digit. rewrite Hr. reflexivity.
  - intros body c Hr. unfold last_digit. rewrite Hr.
    destruct (Ascii.eqb c ".") eqn:Hc.
    + apply Ascii.eqb_eq in Hc. subst c.
      rewrite split_app. change (Py.split "." "") with (@nil string ++ [""]).
      rewrite app_assoc, py_index_last. reflexivity.
    + destruct (split_snoc_other "." c body Hc) as (init & seg & _ & ->).
      rewrite py_index_last. cbn [mbind res_bind].
      rewrite chars_app. cbn [list_ascii_of_string].
      rewrite py_index_last. reflexivity.
Qed.

(** ** Notifier *)

(** [cleanup] ends with an empty list: it tries to delete every recorded
    message once, the most recent first, whether or not deletions raise. *)
Theorem cleanup_deletes_all_newest_first
    (delete_raises : Z -> bool) (sent_messages : list Z) (fuel : nat) :
  (length sent_messages < fuel)%nat ->
  cleanup fuel delete_raises sent_messages
  = Some (map (fun id => DeleteMessage id (delete_raises id)) (rev sent_messages), []).
Proof.
  revert fuel. induction sent_messages as [|x sent IH] using rev_ind; intros fuel Hfuel.
  - destruct fuel; [lia|reflexivity].
  - destruct fuel as [|fuel]; [lia|]. rewrite length_app in Hfuel. cbn in Hfuel.
    cbn [cleanup].
    destruct (sent ++ [x]) as [|y rest] eqn:Heq; [destruct sent; discriminate|].
    rewrite <- Heq. rewrite last_last, removelast_last, IH by lia.
    rewrite rev_app_distr. reflexivity.
Qed.

(** [send_with_image] sends the photo [images/<bot>.png] exactly when the
    bot is one of V1, V2, V4, V5 and that file exists, and the plain text
    otherwise; the id of the new message is recorded when the call returns,
    and nothing is recorded when it raises. *)
Theorem send_with_image_photo_or_text
    (path_exists : string -> bool) (reply : res Z) (bot_type caption : string)
    (sent_messages : list Z) :
  let img := ("images/" ++ bot_type ++ ".png")%string in
  let photo := bool_decide (bot_type ∈ BOT_SEQUENCE) && path_exists img in
  send_with_image path_exists reply bot_type caption sent_messages
  = ([if photo then SendPhoto img caption else SendMessage caption],
     match reply with
     | Ok id => sent_messages ++ [id]
     | Raise _ => sent_messages
     end,
     match reply with
     | Ok _ => Ok ()
     | Raise e => Raise e
     end).
Proof.
  intros img photo. subst img photo. unfold send_with_image, send, BOT_IMAGES.
  cbn [map BOT_SEQUENCE dict_find].
  destruct (String.eqb_spec bot_type "V1") as [->|H1];
    [destruct (path_exists _), reply; reflexivity|].
  destruct (String.eqb_spec bot_type "V2") as [->|H2];
    [destruct (path_exists _), reply; reflexivity|].
  destruct (String.eqb_spec bot_type "V4") as [->|H4];
    [destruct (path_exists _), reply; reflexivity|].
  destruct (String.eqb_spec bot_type "V5") as [->|H5];
    [destruct (path_exists _), reply; reflexivity|].
  rewrite bool_decide_eq_false_2.
  - destruct reply; reflexivity.
  - unfold BOT_SEQUENCE. rewrite !elem_of_cons, elem_of_nil. tauto.
Qed.

(** ** Git synchronisation *)

#[local] Set Warnings "-clear-no-such-hyp".

Ltac git_branch :=
  cbn; split; [|split]; rewrite ?elem_of_cons, ?elem_of_nil; naive_solver.

(** [git_push_if_changed] starts [git push] exactly when [git status]
    succeeded with output that is not blank, [git add] exited with 0 and
    [git commit] could be started: the exit code of the commit is not
    looked at.  It stops after [git status] when the output is blank, and it
    logs the push exactly when [git push] was started and exited with 0. *)
Theorem git_push_exactly_when_changed (proc : git_command -> process) :
  (GitPush ∈ fst (git_push_if_changed proc) <->
     (exists out, proc GitStatus = Exited 0 (Some out) /\ strip out <> "")
     /\ (exists o, proc GitAdd = Exited 0 o)
     /\ proc GitCommit <> NotStarted)
  /\ ((exists out, proc GitStatus = Exited 0 (Some out) /\ strip out = "") ->
      git_push_if_changed proc = ([GitStatus], Silent))
  /\ (snd (git_push_if_changed proc) = Pushed <->
      GitPush ∈ fst (git_push_if_changed proc)
      /\ exists o, proc GitPush = Exited 0 o).
Proof.
  unfold git_push_if_changed.
  destruct (proc GitStatus) as [[|code|code] [out|]|] eqn:Hstatus; cbn [check_output];
    try (git_branch).
  destruct (String.eqb_spec (strip out) "") as [Hblank|Hfull];
    [git_branch|].
  destruct (proc GitAdd) as [acode aout|] eqn:Hadd;
    [|git_branch].
  cbn [run_process andb].
  destruct (Z.eqb_spec acode 0) as [->|Hacode]; cbn [negb];
    [|git_branch].
  destruct (proc GitCommit) as [ccode cout|] eqn:Hcommit;
    [|git_branch].
  destruct (proc GitPush) as [pcode pout|] eqn:Hpush;
    [|git_branch].
  cbn [run_process andb].
  destruct (Z.eqb_spec pcode 0) as [->|Hpcode]; cbn [negb];
    git_branch.
Qed.

(** ** Oscillators and the momentum evaluator *)

Lemma recent_app {A} (n : nat) (pre w : list A) :
  (n <= length w)%nat -> recent n (pre ++ w) = recent n w.
Proof.
  intros Hn. unfold recent. rewrite length_app.
  replace (length pre + length w - n)%nat with (length pre + (length w - n))%nat by lia.
  apply drop_app_add.
Qed.

Lemma recent_recent {A} (m n : nat) (l : list A) :
  (m <= n)%nat -> recent m (recent n l) = recent m l.
Proof.
  intros Hmn. unfold recent. rewrite length_drop, drop_drop. f_equal. lia.
Qed.

Lemma recent_map {A B} (f : A -> B) (n : nat) (l : list A) :
  recent n (map f l) = map f (recent n l).
Proof. unfold recent. rewrite length_map. apply skipn_map. Qed.

Lemma calc_macd_some (prices : list Q) :
  (35 <= length prices)%nat ->
  calc_macd prices = Ok (Some (Py.round (macd_reference prices) 5)).
Proof.
  intros Hlen. unfold calc_macd.
  destruct (Z.ltb_spec (Z.of_nat (length prices)) 35) as [Hlt|_]; [lia|].
  change (-26) with (- Z.of_nat 26). change (-9) with (- Z.of_nat 9).
  rewrite !slice_from_negative by lia.
  rewrite !ema_window by (first [reflexivity | apply recent_nonempty; lia]).
  reflexivity.
Qed.

(** [calc_rsi] reads the last 15 prices only. *)
Theorem rsi_uses_last_15_prices (pre pre' w : list Q) :
  (15 <= length w)%nat ->
  calc_rsi (pre ++ w) 14 = calc_rsi (pre' ++ w) 14
  /\ calc_rsi (pre ++ w) 14 = calc_rsi (recent 15 w) 14.
Proof.
  intros Hw.
  assert (forall l, (15 <= length l)%nat -> recent 15 l = recent 15 w ->
                    calc_rsi l 14 = Ok (Some (Py.round (rsi_reference w) 2))) as Hany.
  { intros l Hl Hrec. destruct (calc_rsi_some l Hl) as [-> _].
    unfold rsi_reference. rewrite Hrec. reflexivity. }
  rewrite (Hany (pre ++ w)), (Hany (pre' ++ w)), (Hany (recent 15 w));
    rewrite ?length_app, ?recent_length, ?recent_app, ?recent_recent by lia;
    first [lia | split; reflexivity | reflexivity].
Qed.

(** [calc_macd] asks for 35 prices but reads the last 26 only. *)
Theorem macd_uses_last_26_prices (pre pre' w : list Q) :
  (26 <= length w)%nat ->
  (35 <= length (pre ++ w))%nat ->
  (35 <= length (pre' ++ w))%nat ->
  calc_macd (pre ++ w) = calc_macd (pre' ++ w).
Proof.
  intros Hw Hl Hl'. rewrite !calc_macd_some by assumption.
  unfold macd_reference. rewrite !recent_app by lia. reflexivity.
Qed.




Lemma round_half_even_upper (y : Q) (hi : Z) :
  (y <= inject_Z hi)%Q -> Py.round_half_even y <= hi.
Proof.
  intros Hhi.
  assert (Qfloor y <= hi) as Hf.
  { rewrite <- (Qfloor_Z hi). apply Qfloor_resp_le, Hhi. }
  unfold Py.round_half_even.
  destruct (Z.eq_dec (Qfloor y) hi) as [Heq|Hne].
  - assert (y - inject_Z (Qfloor y) < 1 # 2)%Q as Hlt.
    { rewrite Heq. apply Qle_lt_trans with (y := 0%Q); [|reflexivity].
      apply (Qplus_le_l _ _ (inject_Z hi)). ring_simplify. exact Hhi. }
    rewrite (proj1 (Qlt_alt _ _) Hlt). lia.
  - destruct (y - inject_Z (Qfloor y) ?= 1 # 2)%Q; [destruct (Z.even (Qfloor y))|..]; lia.
Qed.

Lemma round_nonpositive (x : Q) (n : nat) : (x <= 0)%Q -> (Py.round x n <= 0)%Q.
Proof.
  intros Hx. unfold Py.round.
  set (s := 10 ^ Z.of_nat n).
  assert (0 < s) as Hs by (apply Z.pow_pos_nonneg; lia).
  assert (0 < inject_Z s)%Q as Hsq.
  { change 0%Q with (inject_Z 0). rewrite <- Zlt_Qlt. exact Hs. }
  apply Qle_shift_div_r; [exact Hsq|]. rewrite Qmult_0_l.
  change 0%Q with (inject_Z 0). rewrite <- Zle_Qle.
  apply round_half_even_upper.
  change (inject_Z 0) with 0%Q.
  apply Qle_trans with (y := (0 * inject_Z s)%Q); [|rewrite Qmult_0_l; apply Qle_refl].
  apply Qmult_le_compat_r; [exact Hx|apply Qlt_le_weak, Hsq].
Qed.

Lemma total_zero (f : Q -> Q) (l : list Q) :
  Forall (fun d => (f d == 0)%Q) l -> (total (map f l) == 0)%Q.
Proof.
  induction 1 as [|d l Hd _ IH]; [reflexivity|].
  cbn [map]. unfold total in *. cbn [foldr]. rewrite Hd, IH. reflexivity.
Qed.

(** When none of the last 14 differences is positive, [calc_rsi] returns
    0, a value Python takes for false. *)
Theorem rsi_zero_without_a_rise (prices : list Q) :
  (15 <= length prices)%nat ->
  Forall (fun d => (d <= 0)%Q) (differences (recent 15 prices)) ->
  exists r, calc_rsi prices 14 = Ok (Some r)
    /\ (r == 0)%Q /\ Py.ftruthy r = false.
Proof.
  intros Hlen Hflat.
  destruct (calc_rsi_some prices Hlen) as [Hsome _].
  assert (rsi_reference prices == 0)%Q as Href.
  { unfold rsi_reference, average.
    assert (total (map gain (differences (recent 15 prices))) == 0)%Q as ->.
    { apply total_zero. eapply Forall_impl; [exact Hflat|].
      intros d Hd. unfold gain. destruct (Qlt_le_dec 0 d) as [Hlt|_]; [|reflexivity].
      exfalso. apply (Qlt_irrefl 0). apply Qlt_le_trans with (y := d); assumption. }
    destruct (Qeq_dec (total (map loss (differences (recent 15 prices))) / inject_Z 14) 0)
      as [_|Hnz].
    - reflexivity.
    - field. intros H0. apply Hnz. rewrite H0. reflexivity. }
  exists (Py.round (rsi_reference prices) 2).
  split; [exact Hsome|]. rewrite (round_proper _ 0 2 Href). split; reflexivity.
Qed.



Lemma ema_at_factor (k k' : Q) (w : list Q) (t : nat) :
  (k == k')%Q -> (ema_at k w t == ema_at k' w t)%Q.
Proof.
  intros Hk. induction t as [|t IH]; cbn [ema_at]; [reflexivity|].
  rewrite IH, Hk. reflexivity.
Qed.

Lemma macd_window_nonpositive (w : list Q) :
  length w = 26%nat ->
  Forall (fun x => (0 <= x)%Q) w ->
  (ema_at (2 # 13) w 25 - ema_at (2 # 27) w 25 - ema_at (2 # 10) (recent 9 w) 8 <= 0)%Q.
Proof.
  intros Hlen Hw.
  do 26 (destruct w as [|? w]; [discriminate|]).
  destruct w; [|discriminate].
  repeat match goal with
         | H : Forall _ (_ :: _) |- _ => apply Forall_cons in H as [? H]
         end.
  cbn [recent length Nat.sub drop ema_at nth].
  lra.
Qed.

Lemma macd_reference_nonpositive (prices : list Q) :
  (26 <= length prices)%nat ->
  Forall (fun x => (0 <= x)%Q) (recent 26 prices) ->
  (macd_reference prices <= 0)%Q.
Proof.
  intros Hlen Hw.
  assert (length (recent 26 prices) = 26%nat) as H26 by (rewrite recent_length; lia).
  assert (length (recent 9 prices) = 9%nat) as H9 by (rewrite recent_length; lia).
  apply Qle_trans with
    (y := (ema_at (2 # 13) (recent 26 prices) 25 - ema_at (2 # 27) (recent 26 prices) 25
           - ema_at (2 # 10) (recent 9 (recent 26 prices)) 8)%Q).
  - apply Qle_lteq. right.
    unfold macd_reference, ema_reference, Qminus. rewrite H26, H9. cbn [Nat.sub].
    rewrite (recent_recent 9 26 prices) by lia.
    apply Qplus_comp; [apply Qplus_comp|]; [|apply Qopp_comp|apply Qopp_comp];
      apply ema_at_factor; vm_compute; reflexivity.
  - apply macd_window_nonpositive; assumption.
Qed.

(** [calc_macd] never returns a positive value when the last 26 prices are
    not negative: the signal line is the EMA of the last 9 prices
    themselves, which outweighs the difference of the two other EMAs at
    every position of the window.  The momentum evaluator, which asks for a
    positive value, then does not fire. *)
Theorem momentum_silent_on_nonnegative_prices
    (b : buffers) (sym name : string) (d : Py.deque pyfloat) :
  price_history b !! sym = Some d ->
  Forall (fun p => (0 <= value p)%Q) (recent 26 (Py.items d)) ->
  signal_v4 b sym name = Ok None
  /\ (forall m, calc_macd (map value (Py.items d)) = Ok (Some m) -> (m <= 0)%Q).
Proof.
  intros Hd Hw.
  assert (forall m, calc_macd (map value (Py.items d)) = Ok (Some m) -> (m <= 0)%Q) as Hm.
  { intros m Hcalc.
    destruct (Nat.lt_ge_cases (length (map value (Py.items d))) 35) as [Hlt|Hge].
    - unfold calc_macd in Hcalc.
      destruct (Z.ltb_spec (Z.of_nat (length (map value (Py.items d)))) 35);
        [discriminate|lia].
    - rewrite (calc_macd_some _ Hge) in Hcalc. injection Hcalc as <-.
      apply round_nonpositive, macd_reference_nonpositive; [lia|].
      rewrite recent_map. apply Forall_map. exact Hw. }
  split; [|exact Hm].
  unfold signal_v4. rewrite Hd.
  destruct (calc_rsi_total (map value (Py.items d))) as [r ->].
  destruct (calc_macd_total (map value (Py.items d))) as [m Hcalc]. rewrite Hcalc.
  cbn [mbind res_bind]. destruct r as [r|], m as [m|]; try reflexivity.
  assert (flt 0 m = false) as ->.
  { unfold flt. apply negb_false_iff, Qle_bool_iff, Hm. exact Hcalc. }
  rewrite andb_false_r. reflexivity.
Qed.


(** ** Instances of the further properties *)

Lemma freq_is_full_ranking_witness :
  digit_stats sample_buffers "R_10" = Ok (Some sample_stats)
  /\ exists ticks,
       tick_data sample_buffers !! "R_10" = Some ticks
       /\ Permutation (freq sample_stats) [0; 1; 2; 3; 4; 5; 6; 7; 8; 9].
Proof.
  split; [vm_compute; reflexivity|].
  destruct (freq_is_full_ranking sample_buffers "R_10" sample_stats)
    as (ticks & Ht & Hp & _); [vm_compute; reflexivity|].
  exists ticks. split; [exact Ht|exact Hp].
Defined.

Lemma stats_are_percentages_witness :
  digit_stats sample_buffers "R_10" = Ok (Some sample_stats)
  /\ (under6 sample_stats <= under7 sample_stats)%Q.
Proof.
  split; [vm_compute; reflexivity|].
  apply (stats_are_percentages sample_buffers "R_10" sample_stats).
  vm_compute; reflexivity.
Defined.

Lemma under6_signal_implies_under7_signal_witness :
  exists v1,
    signal_v1 sample_buffers "R_10" "Volatility 10 Index" = Ok (Some v1)
    /\ exists v2,
         signal_v2 sample_buffers "R_10" "Volatility 10 Index" = Ok (Some v2)
         /\ entry (fst v2) = entry (fst v1).
Proof.
  eexists. split; [vm_compute; reflexivity|].
  edestruct (under6_signal_implies_under7_signal sample_buffers "R_10"
               "Volatility 10 Index") as (v2 & p1 & p2 & H2 & He & _);
    [vm_compute; reflexivity|].
  exists v2. split; [exact H2|exact He].
Defined.

Lemma digit_signal_shape_witness :
  signal_v1 ∈ digit_evaluators
  /\ exists sig market,
       signal_v1 sample_buffers "R_10" "Volatility 10 Index" = Ok (Some (sig, market))
       /\ market = "Volatility 10 Index".
Proof.
  assert (signal_v1 ∈ digit_evaluators) as Hin by apply list_elem_of_here.
  split; [exact Hin|].
  eexists _, _. split; [vm_compute; reflexivity|].
  refine (proj1 (digit_signal_shape signal_v1 sample_buffers "R_10"
                   "Volatility 10 Index" _ _ Hin _)).
  vm_compute; reflexivity.
Defined.


Lemma cold_start_no_signal_witness :
  (length (firstn 10 sample_messages) < 35)%nat
  /\ exists current_bot next_bot,
       BOT_SEQUENCE !! 2%nat = Some current_bot
       /\ cycle (collect_ticks no_float_of_str initial_buffers (firstn 10 sample_messages)) 2
          = Ok ([Cleanup; PreAlert current_bot; Sleep 120;
                 Evaluate (map (fun s => (current_bot, s)) symbols);
                 Publish NO_SIGNAL current_bot next_bot None;
                 NoSignalNote current_bot; Sleep 600], 3).
Proof.
  split; [vm_compute; lia|].
  apply (cold_start_no_signal no_float_of_str (firstn 10 sample_messages) 2);
    [vm_compute; lia|lia].
Defined.

Lemma momentum_silent_on_nonnegative_prices_witness :
  price_history (collect_ticks no_float_of_str initial_buffers sample_messages) !! "R_10"
  = Some (Py.Deque 120 (map sample_price sample_digits))
  /\ signal_v4 (collect_ticks no_float_of_str initial_buffers sample_messages)
               "R_10" "Volatility 10 Index" = Ok None.
Proof.
  split; [vm_compute; reflexivity|].
  apply (momentum_silent_on_nonnegative_prices _ "R_10" "Volatility 10 Index"
           (Py.Deque 120 (map sample_price sample_digits))); [vm_compute; reflexivity|].
  vm_compute. repeat (constructor; [discriminate|]). constructor.
Defined.


Lemma rsi_uses_last_15_prices_witness :
  (15 <= length sample_prices)%nat
  /\ calc_rsi ([0%Q; 1000%Q] ++ sample_prices) 14 = calc_rsi ([] ++ sample_prices) 14.
Proof.
  assert (15 <= length sample_prices)%nat as Hlen by (vm_compute; lia).
  split; [exact Hlen|].
  exact (proj1 (rsi_uses_last_15_prices [0%Q; 1000%Q] [] sample_prices Hlen)).
Defined.

Lemma macd_uses_last_26_prices_witness :
  (26 <= length sample_prices)%nat
  /\ calc_macd ([0%Q; 1000%Q] ++ sample_prices) = calc_macd ([] ++ sample_prices).
Proof.
  split; [vm_compute; lia|].
  apply (macd_uses_last_26_prices [0%Q; 1000%Q] [] sample_prices); vm_compute; lia.
Defined.

Lemma rsi_zero_without_a_rise_witness :
  (15 <= length falling_prices)%nat
  /\ exists r, calc_rsi falling_prices 14 = Ok (Some r) /\ (r == 0)%Q.
Proof.
  split; [vm_compute; lia|].
  destruct (rsi_zero_without_a_rise falling_prices) as (r & Hr & H0 & _);
    [vm_compute; lia| |exists r; split; assumption].
  vm_compute. repeat (constructor; [discriminate|]). constructor.
Defined.

Lemma buffers_aligned_witness :
  tick_data (collect_ticks no_float_of_str initial_buffers sample_messages) !! "R_10"
  = Some (Py.Deque 120 sample_digits)
  /\ length sample_digits = length (map sample_price sample_digits).
Proof.
  split; [vm_compute; reflexivity|].
  apply (buffers_aligned no_float_of_str sample_messages "R_10"
           (Py.Deque 120 sample_digits)
           (Py.Deque 120 (map sample_price sample_digits)));
    vm_compute; reflexivity.
Defined.

Lemma failed_message_changes_nothing_witness :
  snd (on_message no_float_of_str
         (collect_ticks no_float_of_str initial_buffers sample_messages) Malformed)
  = Raise JSONDecodeError
  /\ collect_ticks no_float_of_str initial_buffers (sample_messages ++ [Malformed])
     = collect_ticks no_float_of_str initial_buffers sample_messages.
Proof.
  split; [reflexivity|].
  apply (failed_message_changes_nothing no_float_of_str sample_messages Malformed
           JSONDecodeError).
  reflexivity.
Defined.

Lemma unknown_symbol_raises_key_error_witness :
  ("R_99" ∉ symbols)
  /\ snd (on_message no_float_of_str
            (collect_ticks no_float_of_str initial_buffers sample_messages)
            (Parsed (JObj [("tick", JObj stray_tick)])))
     = Raise KeyError.
Proof.
  assert ("R_99" ∉ symbols) as Hnot
    by (apply (bool_decide_eq_false_1 ("R_99" ∈ symbols)); reflexivity).
  split; [exact Hnot|].
  rewrite (unknown_symbol_raises_key_error no_float_of_str sample_messages
             [("tick", JObj stray_tick)] stray_tick
             (JNum (PyFloat 1 "1.0")) (PyFloat 1 "1.0") "R_99");
    [reflexivity|reflexivity|reflexivity|reflexivity|reflexivity|exact Hnot].
Defined.

Lemma pass_lasts_720_seconds_witness :
  tracked sample_buffers = true
  /\ exists evs next, cycle sample_buffers 0 = Ok (evs, next) /\ slept evs = 720.
Proof.
  split; [vm_compute; reflexivity|].
  destruct (pass_lasts_720_seconds sample_buffers 0) as (evs & next & Hc & Hs & _);
    [vm_compute; reflexivity|lia|].
  exists evs, next. split; [exact Hc|exact Hs].
Defined.

Lemma cleanup_deletes_all_newest_first_witness :
  (length [11; 12; 13] < 4)%nat
  /\ cleanup 4 Z.even [11; 12; 13]
     = Some ([DeleteMessage 13 false; DeleteMessage 12 true; DeleteMessage 11 false], []).
Proof.
  split; [cbn; lia|].
  apply (cleanup_deletes_all_newest_first Z.even [11; 12; 13] 4). cbn; lia.
Defined.

Lemma last_digit_final_character_witness :
  last_digit (PyFloat 0 "nan") = Raise ValueError
  /\ last_digit (PyFloat 5 "5.") = Raise IndexError.
Proof.
  split.
  - exact (proj2 (last_digit_final_character (PyFloat 0 "nan")) "na" "n"%char eq_refl).
  - exact (proj2 (last_digit_final_character (PyFloat 5 "5.")) "5" "."%char eq_refl).
Defined.
